(** * clevo-fancontrol: the EC fan controller of [clevo_fan_control.cpp]

    A shallow embedding of the controller and the properties of its
    register decoder, its duty hysteresis, its EC handshake, its control
    loop and its command line.

    - [int32_t] values are [Z]; where the source adds, subtracts or shifts
      them the result is reduced to 32 bits by [wrap32] (two's complement,
      what the x86-64 targets of the program compute).
    - [double] values are IEEE 754 binary64 numbers, [spec_float] with a
      53-bit mantissa, rounded to nearest even by the Standard Library's
      [SFdiv] and [SFmul].
    - Port I/O, the sysfs file, the console and the clock are effects on a
      [World]: the bytes the hardware and the kernel will deliver are
      oracles of the world, what the program does is appended to its trace. *)

From Stdlib Require Import ZArith List String Ascii Bool Lia.
From Stdlib Require Import Floats.SpecFloat.
From Equations Require Import Equations.
Import ListNotations.

Local Open Scope Z_scope.

(** ** Machine integers *)

Definition int32_min : Z := - 2 ^ 31.
Definition int32_max : Z := 2 ^ 31 - 1.

Definition in_int32 (z : Z) : Prop := int32_min <= z <= int32_max.

(** Reduction of a mathematical integer to [int32_t]. *)
Definition wrap32 (z : Z) : Z := (z + 2 ^ 31) mod 2 ^ 32 - 2 ^ 31.

Definition add32 (a b : Z) : Z := wrap32 (a + b).
Definition sub32 (a b : Z) : Z := wrap32 (a - b).
Definition shl32 (a n : Z) : Z := wrap32 (Z.shiftl a n).

(** [static_cast<uint8_t>] of an integer. *)
Definition to_uint8 (z : Z) : Z := z mod 256.

(** ** IEEE 754 binary64 *)

Definition double : Type := spec_float.

Definition dprec : Z := 53.
Definition demax : Z := 1024.

(** [static_cast<double>] of an integer, and a decimal literal [n.0]. *)
Definition double_of_int (z : Z) : double := binary_normalize dprec demax z 0 false.

Definition double_div : double -> double -> double := SFdiv dprec demax.
Definition double_mul : double -> double -> double := SFmul dprec demax.

(** The integer part of a finite double, truncated toward zero; [None] for
    an infinity or a NaN. *)
Definition double_trunc (x : double) : option Z :=
  match x with
  | S754_zero _ => Some 0
  | S754_finite s m e =>
      Some (cond_Zopp s (match e with
                         | Z0 => Zpos m
                         | Zpos p => Zpos m * 2 ^ Zpos p
                         | Zneg p => Zpos m / 2 ^ Zpos p
                         end))
  | S754_infinity _ | S754_nan => None
  end.

(** [static_cast<int32_t>] of a double: the truncated value when it fits,
    the "integer indefinite" value [int32_min] of [cvttsd2si] otherwise. *)
Definition int32_of_double (x : double) : Z :=
  match double_trunc x with
  | Some z => if (int32_min <=? z) && (z <=? int32_max) then z else int32_min
  | None => int32_min
  end.

(** [static_cast<uint8_t>] of a double: truncated, then the low byte. *)
Definition uint8_of_double (x : double) : Z := to_uint8 (int32_of_double x).

(** ** Constants of namespace [k] *)

Module k.
Definition ec_data : Z := 0x62.
Definition ec_sc : Z := 0x66.
Definition ec_sc_read_cmd : Z := 0x80.

Definition ec_reg_size : Z := 0x100.
Definition ec_reg_cpu_temp : Z := 0x07.
Definition ec_reg_gpu_temp : Z := 0xCD.
Definition ec_reg_fan_duty : Z := 0xCE.
Definition ec_reg_fan_rpms_hi : Z := 0xD0.
Definition ec_reg_fan_rpms_lo : Z := 0xD1.

Definition ibf : Z := 0x01.
Definition obf : Z := 0x00.
End k.

(** ** Register decoder *)

Definition calculate_fan_duty (raw_duty : Z) : Z :=
  int32_of_double
    (double_mul (double_div (double_of_int raw_duty) (double_of_int 255))
                (double_of_int 100)).

Definition calculate_fan_rpms (raw_rpm_high raw_rpm_low : Z) : Z :=
  let raw_rpm := add32 (shl32 raw_rpm_high 8) raw_rpm_low in
  if raw_rpm >? 0 then Z.quot 2156220 raw_rpm else 0.

(** ** Duty levels *)

Definition allowed_duties : list Z := [0; 16; 30; 40; 65; 90; 100].

(** The predicate of the [find_if] in [identify_duty]. *)
Definition duty_in_range (duty d : Z) : bool :=
  let range := 1 in
  let min_right := if d =? 0 then d else d - range in
  let max_right := if d =? 0 then d else d + range in
  (duty >=? min_right) && (duty <=? max_right).

Definition identify_duty (duty : Z) : Z :=
  match find (duty_in_range duty) allowed_duties with
  | Some res => res
  | None => duty
  end.

(** The chain of conditional expressions that initialises [new_duty] in
    [ec_auto_duty_adjust]. *)
Definition duty_for_temp (temp_max duty : Z) : Z :=
  if (temp_max >=? 85) && (duty <? 65) then 65
  else if (temp_max >=? 75) && (duty <? 40) then 40
  else if (temp_max >=? 65) && (duty <? 30) then 30
  else if (temp_max >=? 55) && (duty <? 17) then 17
  else if (temp_max <=? 50) then 0
  else if (temp_max <=? 60) && (duty >=? 17) then 17
  else if (temp_max <=? 70) && (duty >=? 30) then 30
  else if (temp_max <=? 80) && (duty >=? 40) then 40
  else if (temp_max <=? 85) && (duty >=? 65) then 65
  else -1.

(** ** Error codes and console messages *)

(** A [std::errc] and the value of a [std::error_code]: the [errno] number,
    [0] for success. *)
Definition errc : Type := Z.

Definition EXIT_SUCCESS : Z := 0.
Definition EXIT_FAILURE : Z := 1.

Module Errc.
Definition success : errc := EXIT_SUCCESS.
Definition invalid_argument : errc := 22.
Definition result_out_of_range : errc := 34.
Definition timed_out : errc := 110.
End Errc.

(** The lines the program prints with [fmt::print], by format string. *)
Inductive Msg : Type :=
| MsgWaitEcError (port data flag value : Z)
| MsgWrongFanDuty (duty_percentage : Z)
| MsgDumpOpen
| MsgDumpField (name : string) (v : Z)
| MsgDumpClose
| MsgUsingAdjusted (new_duty_adj : Z)
| MsgUnableToReadEC
| MsgWrongECSize (len : Z)
| MsgAutoFanDuty (cpu_temp gpu_temp next_duty : Z)
| MsgWorkerQuit
| MsgHelp
| MsgChangeFanDuty (duty_percentage : Z)
| MsgNewline
| MsgOnSignal (signum fan_reset : Z)
| MsgUnableToControlEC (err : errc)
| MsgInvalidFanDuty (arg : string)
| MsgErrorMessage (err : errc)
| MsgWorkerFailed (err : errc)
| MsgSetFanFailed (err : errc).

(** What the program does to its environment, in the order it does it. *)
Inductive Event : Type :=
| EvIoperm (port : Z)
| EvInb (port data : Z)
| EvOutb (value port : Z)
| EvSleepMicroseconds (n : Z)
| EvSleepSeconds (n : Z)
| EvPrint (m : Msg)
| EvSetuid (uid : Z)
| EvSystem (cmd : string)
| EvOpen (path : string) (fd : Z)
| EvRead (fd len : Z)
| EvClose (fd : Z)
| EvSignal (signum : Z).

(** ** The world *)

Inductive open_result : Type :=
| OpenFd (fd : Z)
| OpenError (err : Z).

Inductive read_result : Type :=
| ReadBytes (bytes : list Z)
| ReadError (err : Z).

Record World : Type := mkWorld {
  port_in : nat -> Z;              (* the byte the n-th [inb] receives *)
  inb_count : nat;
  ioperm_ret : Z -> Z;             (* what [ioperm] returns for a port *)
  open_ret : nat -> open_result;   (* the outcome of the n-th [open] *)
  open_count : nat;
  read_ret : nat -> read_result;   (* the outcome of the n-th [read] *)
  read_count : nat;
  signal_at : nat -> option Z;     (* the signal raised after the n-th tick *)
  tick_count : nat;
  errno : Z;
  global_running_flag : bool;
  open_fds : list Z;               (* descriptors open in the process *)
  trace : list Event
}.

Definition log (e : Event) (w : World) : World :=
  mkWorld (port_in w) (inb_count w) (ioperm_ret w) (open_ret w) (open_count w)
          (read_ret w) (read_count w) (signal_at w) (tick_count w) (errno w)
          (global_running_flag w) (open_fds w) (trace w ++ [e]).

Definition next_inb (w : World) : World :=
  mkWorld (port_in w) (S (inb_count w)) (ioperm_ret w) (open_ret w) (open_count w)
          (read_ret w) (read_count w) (signal_at w) (tick_count w) (errno w)
          (global_running_flag w) (open_fds w) (trace w).

Definition next_open (w : World) : World :=
  mkWorld (port_in w) (inb_count w) (ioperm_ret w) (open_ret w) (S (open_count w))
          (read_ret w) (read_count w) (signal_at w) (tick_count w) (errno w)
          (global_running_flag w) (open_fds w) (trace w).

Definition next_read (w : World) : World :=
  mkWorld (port_in w) (inb_count w) (ioperm_ret w) (open_ret w) (open_count w)
          (read_ret w) (S (read_count w)) (signal_at w) (tick_count w) (errno w)
          (global_running_flag w) (open_fds w) (trace w).

Definition next_tick (w : World) : World :=
  mkWorld (port_in w) (inb_count w) (ioperm_ret w) (open_ret w) (open_count w)
          (read_ret w) (read_count w) (signal_at w) (S (tick_count w)) (errno w)
          (global_running_flag w) (open_fds w) (trace w).

Definition set_errno (e : Z) (w : World) : World :=
  mkWorld (port_in w) (inb_count w) (ioperm_ret w) (open_ret w) (open_count w)
          (read_ret w) (read_count w) (signal_at w) (tick_count w) e
          (global_running_flag w) (open_fds w) (trace w).

Definition set_running_flag (b : bool) (w : World) : World :=
  mkWorld (port_in w) (inb_count w) (ioperm_ret w) (open_ret w) (open_count w)
          (read_ret w) (read_count w) (signal_at w) (tick_count w) (errno w)
          b (open_fds w) (trace w).

Definition set_open_fds (fds : list Z) (w : World) : World :=
  mkWorld (port_in w) (inb_count w) (ioperm_ret w) (open_ret w) (open_count w)
          (read_ret w) (read_count w) (signal_at w) (tick_count w) (errno w)
          (global_running_flag w) fds (trace w).

(** ** The monad of effects *)

Definition M (A : Type) : Type := World -> A * World.

Definition ret {A : Type} (a : A) : M A := fun w => (a, w).

Definition bind {A B : Type} (m : M A) (f : A -> M B) : M B :=
  fun w => let (a, w1) := m w in f a w1.

Declare Scope io_scope.
Delimit Scope io_scope with io.
Notation "x <- m ;; f" := (bind m (fun x => f))
  (at level 61, m at next level, right associativity) : io_scope.
Notation "m ;; f" := (bind m (fun _ => f))
  (at level 61, right associativity) : io_scope.
Local Open Scope io_scope.

(** The value and the final world of a run. *)
Definition value_of {A : Type} (m : M A) (w : World) : A := fst (m w).
Definition world_after {A : Type} (m : M A) (w : World) : World := snd (m w).

(** *** System calls and port instructions *)

Definition emit (e : Event) : M unit := fun w => (tt, log e w).

Definition print (m : Msg) : M unit := emit (EvPrint m).

Definition ioperm (port : Z) : M Z :=
  fun w => (ioperm_ret w port, log (EvIoperm port) w).

Definition inb (port : Z) : M Z :=
  fun w => let data := to_uint8 (port_in w (inb_count w)) in
           (data, log (EvInb port data) (next_inb w)).

Definition outb (value port : Z) : M unit := emit (EvOutb (to_uint8 value) port).

Definition sleep_for_microseconds (n : Z) : M unit := emit (EvSleepMicroseconds n).
Definition sleep_for_seconds (n : Z) : M unit := emit (EvSleepSeconds n).

Definition setuid (uid : Z) : M unit := emit (EvSetuid uid).
Definition system (cmd : string) : M unit := emit (EvSystem cmd).

Definition get_errno : M Z := fun w => (errno w, w).

Definition sys_open (path : string) : M Z :=
  fun w => match open_ret w (open_count w) with
           | OpenFd fd =>
               (fd, log (EvOpen path fd) (set_open_fds (fd :: open_fds w) (next_open w)))
           | OpenError err =>
               (-1, log (EvOpen path (-1)) (set_errno err (next_open w)))
           end.

(** [read(fd, buf.data(), size)] into a zero-initialised buffer: the length
    read and the buffer afterwards. *)
Definition sys_read (fd size : Z) : M (Z * list Z) :=
  fun w => match read_ret w (read_count w) with
           | ReadBytes bytes =>
               let got := firstn (Z.to_nat size) bytes in
               let len := Z.of_nat (List.length got) in
               let buf := (map to_uint8 got ++ repeat 0 (Z.to_nat size - List.length got))%list in
               ((len, buf), log (EvRead fd len) (next_read w))
           | ReadError err =>
               ((-1, repeat 0 (Z.to_nat size)),
                log (EvRead fd (-1)) (set_errno err (next_read w)))
           end.

Definition sys_close (fd : Z) : M unit :=
  fun w => (tt, log (EvClose fd)
                    (set_open_fds (filter (fun x => negb (x =? fd)) (open_fds w)) w)).

(** ** EC protocol engine *)

(** The polls [ec_io_wait] may still make once [repeat_count] have failed:
    the variant of its loop. *)
Definition polls_left (repeat_count : Z) : nat := Z.to_nat (100 - repeat_count).

#[local] Opaque polls_left.

(** The [while (true)] loop of [ec_io_wait], entered with the current value
    of [repeat_count]. *)
Equations? ec_io_wait_loop (port flag value : Z) (repeat_count : Z) (w : World)
  : errc * World by wf (polls_left repeat_count) lt :=
  ec_io_wait_loop port flag value repeat_count w with inb port w => {
    | (data, w1) with Z.eq_dec (Z.land (Z.shiftr data flag) 1) value => {
      | left _ := (Errc.success, w1);
      | right _ with Z_ge_dec (repeat_count + 1) 100 => {
        | left _ :=
            (Errc.timed_out, snd (print (MsgWaitEcError port data flag value) w1));
        | right _ :=
            ec_io_wait_loop port flag value (repeat_count + 1)
                            (snd (sleep_for_microseconds 1 w1)) } } }.
Proof. with_strategy transparent [polls_left] (unfold polls_left); lia. Qed.

#[local] Transparent polls_left.

Definition ec_io_wait (port flag value : Z) : M errc :=
  ec_io_wait_loop port flag value 0.

Definition ec_init : M errc :=
  err <- ioperm k.ec_data ;;
  if negb (err =? 0) then ret err
  else
    err <- ioperm k.ec_sc ;;
    if negb (err =? 0) then ret err
    else ret Errc.success.

Definition ec_io_do (cmd port value : Z) : M errc :=
  err <- ec_io_wait k.ec_sc k.ibf 0 ;;
  if negb (err =? 0) then ret err
  else
    outb cmd k.ec_sc ;;
    err <- ec_io_wait k.ec_sc k.ibf 0 ;;
    if negb (err =? 0) then ret err
    else
      outb port k.ec_data ;;
      err <- ec_io_wait k.ec_sc k.ibf 0 ;;
      if negb (err =? 0) then ret err
      else
        outb value k.ec_data ;;
        ec_io_wait k.ec_sc k.ibf 0.

Definition ec_io_read (port : Z) : M Z :=
  ec_io_wait k.ec_sc k.ibf 0 ;;
  outb k.ec_sc_read_cmd k.ec_sc ;;
  ec_io_wait k.ec_sc k.ibf 0 ;;
  outb port k.ec_data ;;
  ec_io_wait k.ec_sc k.obf 1 ;;
  inb k.ec_data.

(** ** Queries and the duty write *)

Definition ec_query_cpu_temp : M Z := ec_io_read (to_uint8 k.ec_reg_cpu_temp).

Definition ec_query_gpu_temp : M Z := ec_io_read (to_uint8 k.ec_reg_gpu_temp).

Definition ec_query_fan_duty : M Z :=
  raw <- ec_io_read (to_uint8 k.ec_reg_fan_duty) ;;
  ret (calculate_fan_duty raw).

Definition ec_query_fan_rpms : M Z :=
  raw_rpm_hi <- ec_io_read (to_uint8 k.ec_reg_fan_rpms_hi) ;;
  raw_rpm_lo <- ec_io_read (to_uint8 k.ec_reg_fan_rpms_lo) ;;
  ret (calculate_fan_rpms raw_rpm_hi raw_rpm_lo).

Definition ec_write_fan_duty (duty_percentage : Z) : M errc :=
  if (duty_percentage <? 0) || (duty_percentage >? 100) then
    print (MsgWrongFanDuty duty_percentage) ;;
    ret Errc.invalid_argument
  else
    ec_io_do 0x99 0x01
      (uint8_of_double
         (double_mul (double_div (double_of_int duty_percentage) (double_of_int 100))
                     (double_of_int 255))).

Definition dump_fan : M unit :=
  print MsgDumpOpen ;;
  duty <- ec_query_fan_duty ;;
  print (MsgDumpField "duty" duty) ;;
  rpms <- ec_query_fan_rpms ;;
  print (MsgDumpField "rpms" rpms) ;;
  cpu <- ec_query_cpu_temp ;;
  print (MsgDumpField "cpu_temp_cels" cpu) ;;
  gpu <- ec_query_gpu_temp ;;
  print (MsgDumpField "gpu_temp_cels" gpu) ;;
  print MsgDumpClose.

(** ** Thermal control *)

Definition ec_auto_duty_adjust (cpu_temp gpu_temp fan_duty : Z) : M Z :=
  let temp_max := Z.max cpu_temp gpu_temp in
  let duty := identify_duty fan_duty in
  let new_duty := duty_for_temp temp_max duty in
  if new_duty >? fan_duty then
    let new_duty_adj := add32 duty (Z.quot (sub32 new_duty fan_duty) 2) in
    if sub32 new_duty new_duty_adj >? 2 then
      print (MsgUsingAdjusted new_duty_adj) ;;
      ret new_duty_adj
    else ret new_duty
  else ret new_duty.

(** ** Control loop *)

(** The local variables of [ec_worker] that live across iterations. *)
Record Control : Type := mkControl {
  cpu_temp : Z;
  gpu_temp : Z;
  fan_duty : Z;
  auto_duty_val : Z
}.

Definition buf_at (buf : list Z) (i : Z) : Z := nth (Z.to_nat i) buf 0.

(** First half of the loop body: open the sysfs file, read the register
    image, decode it, close the file. [inl] is a [return] out of
    [ec_worker]. *)
Definition ec_worker_snapshot (c : Control) : M (errc + Control) :=
  io_fd <- sys_open "/sys/kernel/debug/ec/ec0/io" ;;
  if io_fd <? 0 then
    print MsgUnableToReadEC ;;
    e <- get_errno ;;
    ret (inl e)
  else
    r <- sys_read io_fd k.ec_reg_size ;;
    let (len, buf) := r : Z * list Z in
    if len =? -1 then
      print MsgUnableToReadEC ;;
      e <- get_errno ;;
      ret (inl e)
    else
      c1 <- (if len =? 0x100 then
               ret (mkControl (buf_at buf k.ec_reg_cpu_temp)
                              (buf_at buf k.ec_reg_gpu_temp)
                              (calculate_fan_duty (buf_at buf k.ec_reg_fan_duty))
                              (auto_duty_val c))
             else
               print (MsgWrongECSize len) ;;
               ret c) ;;
      sys_close io_fd ;;
      ret (inr c1).

(** Second half of the loop body: choose the duty, write it when it
    changed, sleep. *)
Definition ec_worker_control (c : Control) : M Control :=
  next_duty <- ec_auto_duty_adjust (cpu_temp c) (gpu_temp c) (fan_duty c) ;;
  c1 <- (if (negb (next_duty =? -1) && negb (next_duty =? auto_duty_val c))
            || ((next_duty =? 0) && negb (fan_duty c =? 0)) then
           print (MsgAutoFanDuty (cpu_temp c) (gpu_temp c) next_duty) ;;
           ec_write_fan_duty next_duty ;;
           ret (mkControl (cpu_temp c) (gpu_temp c) (fan_duty c) next_duty)
         else ret c) ;;
  sleep_for_seconds 2 ;;
  ret c1.

Definition ec_worker_body (c : Control) : M (errc + Control) :=
  r <- ec_worker_snapshot c ;;
  match r with
  | inl e => ret (inl e)
  | inr c1 =>
      c2 <- ec_worker_control c1 ;;
      ret (inr c2)
  end.

(** ** Shutdown guard *)

Definition set_fan (duty_percentage : Z) : M errc :=
  print (MsgChangeFanDuty duty_percentage) ;;
  err <- ec_write_fan_duty duty_percentage ;;
  if negb (err =? 0) then ret err
  else
    print MsgNewline ;;
    dump_fan ;;
    ret Errc.success.

Definition ec_on_sigterm (signum : Z) : M unit :=
  let fan_reset := 40 in
  print (MsgOnSignal signum fan_reset) ;;
  (fun w => (tt, set_running_flag false w)) ;;
  set_fan fan_reset ;;
  ret tt.

Definition SIGHUP : Z := 1.
Definition SIGINT : Z := 2.
Definition SIGQUIT : Z := 3.
Definition SIGUSR1 : Z := 10.
Definition SIGUSR2 : Z := 12.
Definition SIGPIPE : Z := 13.
Definition SIGALRM : Z := 14.
Definition SIGTERM : Z := 15.

Definition install_signal_handler : M unit :=
  emit (EvSignal SIGHUP) ;;
  emit (EvSignal SIGINT) ;;
  emit (EvSignal SIGQUIT) ;;
  emit (EvSignal SIGPIPE) ;;
  emit (EvSignal SIGALRM) ;;
  emit (EvSignal SIGTERM) ;;
  emit (EvSignal SIGUSR1) ;;
  emit (EvSignal SIGUSR2).

(** Signals are asynchronous. The model raises the signal that the world
    schedules for an iteration, if any, once the iteration is over, by
    running the handler [ec_on_sigterm]. *)
Definition raise_pending_signal : M unit :=
  fun w => match signal_at w (tick_count w) with
           | Some signum => ec_on_sigterm signum (next_tick w)
           | None => (tt, next_tick w)
           end.

Definition read_running_flag : M bool := fun w => (global_running_flag w, w).

(** The [while (global_running_flag)] loop, for at most [fuel] iterations;
    [None] when the loop is still running after that many. *)
Fixpoint ec_worker_loop (fuel : nat) (c : Control) : M (option errc) :=
  match fuel with
  | O => ret None
  | S fuel' =>
      running <- read_running_flag ;;
      if running then
        r <- ec_worker_body c ;;
        match r with
        | inl e => ret (Some e)
        | inr c1 =>
            raise_pending_signal ;;
            ec_worker_loop fuel' c1
        end
      else
        print MsgWorkerQuit ;;
        ret (Some Errc.success)
  end.

Definition ec_worker (fuel : nat) : M (option errc) :=
  setuid 0 ;;
  system "modprobe ec_sys" ;;
  ec_worker_loop fuel (mkControl 0 0 0 (-1)).

(** ** Command line *)

Definition is_digit (c : ascii) : bool :=
  (48 <=? nat_of_ascii c)%nat && (nat_of_ascii c <=? 57)%nat.

Definition digit_value (c : ascii) : Z := Z.of_nat (nat_of_ascii c) - 48.

Fixpoint leading_digits (s : string) : list Z :=
  match s with
  | String c rest => if is_digit c then digit_value c :: leading_digits rest else []
  | EmptyString => []
  end.

(** [std::from_chars(first, last, value)] for an [int32_t] in base 10: an
    optional minus sign and the longest run of digits after it. The error
    code and the value afterwards, which is left as it was on an error. *)
Definition from_chars (s : string) (value : Z) : errc * Z :=
  let (negative, digits) :=
    match s with
    | String "-"%char rest => (true, rest)
    | _ => (false, s)
    end in
  match leading_digits digits with
  | [] => (Errc.invalid_argument, value)
  | ds =>
      let n := fold_left (fun acc d => acc * 10 + d) ds 0 in
      let v := if negative then - n else n in
      if (int32_min <=? v) && (v <=? int32_max) then (Errc.success, v)
      else (Errc.result_out_of_range, value)
  end.

Definition is_help (s : string) : bool :=
  String.eqb s "--help" || String.eqb s "-h".

(** The content of the uninitialised [int32_t val] of [ec_main]; it is not
    read unless [from_chars] has assigned it. *)
Definition indeterminate : Z := 0.

Definition ec_main (fuel : nat) (args : list string) : M (option errc) :=
  err <- ec_init ;;
  if negb (err =? 0) then
    print (MsgUnableToControlEC err) ;;
    ret (Some err)
  else if (List.length args <=? 1)%nat then
    dump_fan ;;
    ret (Some Errc.success)
  else if existsb is_help (skipn 1 args) then
    print MsgHelp ;;
    dump_fan ;;
    ret (Some Errc.success)
  else
    let arg1 := nth 1 args EmptyString in
    let (err, val) := from_chars arg1 indeterminate in
    if negb (err =? 0) || (val <? -1) || (val >? 100) then
      print (MsgInvalidFanDuty arg1) ;;
      (if negb (err =? 0) then print (MsgErrorMessage err) else ret tt) ;;
      ret (Some err)
    else if val =? -1 then
      install_signal_handler ;;
      r <- ec_worker fuel ;;
      match r with
      | None => ret None
      | Some err =>
          if negb (err =? 0) then
            print (MsgWorkerFailed err) ;;
            ret (Some err)
          else ret (Some Errc.success)
      end
    else
      err <- set_fan val ;;
      if negb (err =? 0) then
        print (MsgSetFanFailed err) ;;
        ret (Some err)
      else ret (Some Errc.success).

(** The exit status of the process; [None] when the worker is still running
    after [fuel] iterations. *)
Definition main (fuel : nat) (argv : list string) : M (option Z) :=
  let args := argv in
  r <- ec_main fuel args ;;
  match r with
  | None => ret None
  | Some err => ret (Some (if negb (err =? 0) then EXIT_FAILURE else EXIT_SUCCESS))
  end.

(** ** Definitions used in the statements *)

(** The values of a [uint8_t], 0 to 255. *)
Definition byte_values : list Z := map Z.of_nat (seq 0 256).

(** The decoder in the words of the specification, [round(raw / 255 * 100)]:
    the integer nearest to the quotient. *)
Definition duty_percent_rounded (raw : Z) : Z := (2 * (raw * 100) + 255) / (2 * 255).

(** The 16-bit raw value of two register bytes in the words of the
    specification, [(hi << 8) | lo]; the source adds the two parts. *)
Definition combined (hi lo : Z) : Z := Z.lor (Z.shiftl hi 8) lo.

(** The smoothed duty [new_duty_adj] of [ec_auto_duty_adjust]. *)
Definition adjusted_duty (duty new_duty fan_duty : Z) : Z :=
  add32 duty (Z.quot (sub32 new_duty fan_duty) 2).

(** The flag bit [ec_io_wait] extracts from a status byte. *)
Definition flag_bit (flag data : Z) : Z := Z.land (Z.shiftr data flag) 1.

(** The byte that the [i]-th [inb] from world [w] on will read. *)
Definition poll (w : World) (i : nat) : Z := to_uint8 (port_in w (inb_count w + i)).

(** What a wait that starts in world [w] with a budget of [budget] polls
    may end with: it made [n] polls, [1 <= n <= budget], the first [n - 1]
    of them saw another flag value, and either the [n]-th saw the expected
    one and the result is success, or the budget is used up and the result
    is [timed_out]. *)
Definition wait_outcome (flag value : Z) (budget : nat) (w : World)
           (r : errc * World) : Prop :=
  exists n : nat,
    (1 <= n <= budget)%nat /\
    inb_count (snd r) = (inb_count w + n)%nat /\
    port_in (snd r) = port_in w /\
    (forall i, (i < n - 1)%nat -> flag_bit flag (poll w i) <> value) /\
    ((fst r = Errc.success /\ flag_bit flag (poll w (n - 1)) = value) \/
     (fst r = Errc.timed_out /\ n = budget /\
      flag_bit flag (poll w (n - 1)) <> value)).

Definition is_outb (e : Event) : bool :=
  match e with
  | EvOutb _ _ => true
  | _ => false
  end.

(** The bytes the program has written to the EC ports. *)
Definition port_writes (t : list Event) : list Event := filter is_outb t.

(** A 256-byte register image with the given temperature and duty bytes. *)
Definition ec_image (cpu gpu raw_duty : Z) : list Z :=
  map (fun i => if i =? k.ec_reg_cpu_temp then cpu
                else if i =? k.ec_reg_gpu_temp then gpu
                else if i =? k.ec_reg_fan_duty then raw_duty
                else 0)
      byte_values.

(** A world where the ports are granted, the EC answers every handshake at
    once (IBF clear, OBF set), [open] returns descriptor 3, [read] returns
    [image] and no signal arrives. *)
Definition ready_world (image : list Z) : World :=
  mkWorld (fun _ => 1) 0 (fun _ => 0) (fun _ => OpenFd 3) 0
          (fun _ => ReadBytes image) 0 (fun _ => None) 0 0 true [] [].

(** The same world, except that [read] fails with [EIO]. *)
Definition read_error_world : World :=
  mkWorld (fun _ => 1) 0 (fun _ => 0) (fun _ => OpenFd 3) 0
          (fun _ => ReadError 5) 0 (fun _ => None) 0 0 true [] [].

(** ** Definitions used in the further statements *)

(** Everything of a world but the count of [inb] calls and the trace: what
    port I/O, sleeping and printing leave as it is. *)
Definition outside_ports (w : World) :=
  (port_in w, ioperm_ret w, open_ret w, open_count w, read_ret w, read_count w,
   signal_at w, tick_count w, errno w, global_running_flag w, open_fds w).

(** A computation that touches the world through port I/O, sleeping and
    printing only. *)
Definition port_only {A : Type} (m : M A) : Prop :=
  forall w, outside_ports (world_after m w) = outside_ports w /\
            (inb_count w <= inb_count (world_after m w))%nat.

(** The port writes a computation adds to the trace of [w]. *)
Definition writes_of {A : Type} (m : M A) (w : World) (ws : list Event) : Prop :=
  port_writes (trace (world_after m w)) = (port_writes (trace w) ++ ws)%list.

Definition is_prefix {A : Type} (p l : list A) : Prop := exists s, l = (p ++ s)%list.

(** The three bytes of a complete [ec_io_do]. *)
Definition io_do_bytes (cmd port value : Z) : list Event :=
  [EvOutb (to_uint8 cmd) k.ec_sc; EvOutb (to_uint8 port) k.ec_data;
   EvOutb (to_uint8 value) k.ec_data].

(** The two bytes of an [ec_io_read]. *)
Definition io_read_bytes (port : Z) : list Event :=
  [EvOutb k.ec_sc_read_cmd k.ec_sc; EvOutb (to_uint8 port) k.ec_data].

(** The raw duty byte that [ec_write_fan_duty] passes to [ec_io_do]. *)
Definition duty_raw_byte (duty_percentage : Z) : Z :=
  uint8_of_double
    (double_mul (double_div (double_of_int duty_percentage) (double_of_int 100))
                (double_of_int 255)).

(** The port writes of a complete [dump_fan]: five register reads. *)
Definition dump_bytes : list Event :=
  (io_read_bytes k.ec_reg_fan_duty ++ io_read_bytes k.ec_reg_fan_rpms_hi ++
   io_read_bytes k.ec_reg_fan_rpms_lo ++ io_read_bytes k.ec_reg_cpu_temp ++
   io_read_bytes k.ec_reg_gpu_temp)%list.

(** The duties 0 to 100. *)
Definition percent_values : list Z := map Z.of_nat (seq 0 101).

(** The events of a wait: port reads, microsecond sleeps and the timeout
    message. *)
Definition is_wait_event (e : Event) : bool :=
  match e with
  | EvInb _ _ | EvSleepMicroseconds _ | EvPrint (MsgWaitEcError _ _ _ _) => true
  | _ => false
  end.

Definition is_dump_field (e : Event) : bool :=
  match e with
  | EvPrint (MsgDumpField _ _) => true
  | _ => false
  end.

(** The fields that [dump_fan] has printed. *)
Definition fields_of (t : list Event) : list Event := filter is_dump_field t.

(** The test of [ec_worker] that decides whether [next_duty] is written. *)
Definition duty_changed (c : Control) (next_duty : Z) : bool :=
  (negb (next_duty =? -1) && negb (next_duty =? auto_duty_val c))
  || ((next_duty =? 0) && negb (fan_duty c =? 0)).

(** What the snapshot half of an iteration leaves as it is: the ports, the
    signals to come and the running flag. *)
Definition beside_sysfs (w : World) :=
  (port_in w, inb_count w, ioperm_ret w, open_ret w, read_ret w, signal_at w,
   tick_count w, global_running_flag w).

(** The register at address [i] of the image that [read] delivered. *)
Definition image_byte (bytes : list Z) (i : Z) : Z := to_uint8 (nth (Z.to_nat i) bytes 0).

Definition sysfs_path : string := "/sys/kernel/debug/ec/ec0/io".

(** What an iteration of the loop leaves as it is: the outcomes of [open]
    and [read] to come, the signals to come, the count of iterations and
    the running flag. *)
Definition loop_env (w : World) :=
  (open_ret w, read_ret w, signal_at w, tick_count w, global_running_flag w).

(** A world in which the worker can run for ever: [open] and [read] always
    succeed, no signal is scheduled and the flag is set. *)
Definition undisturbed (w : World) : Prop :=
  (forall n, exists fd, open_ret w n = OpenFd fd /\ 0 <= fd) /\
  (forall n, exists bytes, read_ret w n = ReadBytes bytes) /\
  (forall n, signal_at w n = None) /\
  global_running_flag w = true.

(** A world whose EC never clears its input buffer: every status byte has
    IBF set. *)
Definition busy_world : World :=
  mkWorld (fun _ => 2) 0 (fun _ => 0) (fun _ => OpenFd 3) 0
          (fun _ => ReadBytes (ec_image 90 60 76)) 0 (fun _ => None) 0 0 true [] [].

(** A world in which the process may not use the ports. *)
Definition denied_world : World :=
  mkWorld (fun _ => 1) 0 (fun _ => -1) (fun _ => OpenFd 3) 0
          (fun _ => ReadBytes []) 0 (fun _ => None) 0 0 true [] [].

(** A ready world at 90 degrees in which [SIGTERM] is raised after the
    second iteration. *)
Definition sigterm_world : World :=
  mkWorld (fun _ => 1) 0 (fun _ => 0) (fun _ => OpenFd 3) 0
          (fun _ => ReadBytes (ec_image 90 60 76)) 0
          (fun n => if Nat.eqb n 1 then Some SIGTERM else None) 0 0 true [] [].

(** A world whose [open] fails with [ENOENT], and one whose [read] is 16
    bytes short. *)
Definition no_sysfs_world : World :=
  mkWorld (fun _ => 1) 0 (fun _ => 0) (fun _ => OpenError 2) 0
          (fun _ => ReadBytes []) 0 (fun _ => None) 0 0 true [] [].

Definition short_read_world : World :=
  mkWorld (fun _ => 1) 0 (fun _ => 0) (fun _ => OpenFd 3) 0
          (fun _ => ReadBytes (repeat 7 240)) 0 (fun _ => None) 0 0 true [] [].

(** * Properties *)

(** ** Machine integers *)

(** Goals and hypotheses about the [int32_t] range, by linear arithmetic. *)
Ltac int32_lia := unfold in_int32, int32_min, int32_max in *; lia.

Lemma wrap32_small (z : Z) : in_int32 z -> wrap32 z = z.
Proof.
  unfold wrap32. intros H. rewrite Z.mod_small by int32_lia. lia.
Qed.

Lemma wrap32_range (z : Z) : in_int32 (wrap32 z).
Proof.
  unfold in_int32, int32_min, int32_max, wrap32.
  pose proof (Z.mod_pos_bound (z + 2 ^ 31) (2 ^ 32) ltac:(lia)). lia.
Qed.

(** A 32-bit difference that comes out above 2 did not wrap, when the
    minuend is a duty of the table. *)
Lemma sub32_gt_2 (a b : Z) :
  -1 <= a <= 65 -> in_int32 b -> 2 < sub32 a b -> b < a - 2.
Proof.
  unfold sub32, in_int32, int32_min, int32_max. intros Ha Hb H.
  destruct (Z_lt_le_dec (a - b) (2 ^ 31)) as [Hs | Hl].
  - rewrite wrap32_small in H by int32_lia. lia.
  - exfalso. unfold wrap32 in H.
    replace (a - b + 2 ^ 31) with ((a - b - 2 ^ 31) + 1 * 2 ^ 32) in H by lia.
    rewrite Z.mod_add in H by lia.
    rewrite Z.mod_small in H by lia. lia.
Qed.

(** ** Duty levels *)

Lemma duty_in_range_false (duty d : Z) :
  (d = 0 -> duty <> 0) -> (d <> 0 -> duty < d - 1 \/ d + 1 < duty) ->
  duty_in_range duty d = false.
Proof.
  unfold duty_in_range. intros H0 H1.
  destruct (Z.eqb_spec d 0) as [E | E];
    destruct (Z.geb_spec duty (if false then d else d - 1));
    destruct (Z.leb_spec duty (if false then d else d + 1));
    cbn in *; try reflexivity; lia.
Qed.

Lemma identify_duty_cases (x : Z) :
  (identify_duty x = x /\
   (x = 0 \/ forall L, In L [16; 30; 40; 65; 90; 100] -> 1 < Z.abs (x - L))) \/
  (In (identify_duty x) [16; 30; 40; 65; 90; 100] /\ Z.abs (x - identify_duty x) <= 1).
Proof.
  assert (x = 0 \/ (x = 15 \/ x = 16 \/ x = 17) \/ (x = 29 \/ x = 30 \/ x = 31) \/
          (x = 39 \/ x = 40 \/ x = 41) \/ (x = 64 \/ x = 65 \/ x = 66) \/
          (x = 89 \/ x = 90 \/ x = 91) \/ (x = 99 \/ x = 100 \/ x = 101) \/
          (x <> 0 /\ forall L, In L [16; 30; 40; 65; 90; 100] -> 1 < Z.abs (x - L)))
    as Hx.
  { destruct (Z.eq_dec x 0); [left; assumption | right].
    destruct (Z_le_dec (Z.abs (x - 16)) 1); [left; lia | right].
    destruct (Z_le_dec (Z.abs (x - 30)) 1); [left; lia | right].
    destruct (Z_le_dec (Z.abs (x - 40)) 1); [left; lia | right].
    destruct (Z_le_dec (Z.abs (x - 65)) 1); [left; lia | right].
    destruct (Z_le_dec (Z.abs (x - 90)) 1); [left; lia | right].
    destruct (Z_le_dec (Z.abs (x - 100)) 1); [left; lia | right].
    split; [assumption |]. cbn [In]. intros L HL.
    repeat (destruct HL as [HL | HL]; [subst L; lia |]). contradiction. }
  destruct Hx as [E | Hx].
  { subst x. left. split; [reflexivity | left; reflexivity]. }
  repeat (destruct Hx as [[E | [E | E]] | Hx];
          [subst x; right; split; [cbn; lia | cbn; lia] .. |]).
  destruct Hx as [Hn Hfar]. left. split; [| right; exact Hfar].
  unfold identify_duty, allowed_duties. cbn [find].
  rewrite !duty_in_range_false; [reflexivity | try lia ..];
    intros _; match goal with
              | |- _ < ?L - 1 \/ _ =>
                  specialize (Hfar L ltac:(cbn [In]; lia)); lia
              end.
Qed.

Lemma identify_duty_near (x : Z) : x - 1 <= identify_duty x <= x + 1.
Proof.
  destruct (identify_duty_cases x) as [[H _] | [_ H]]; lia.
Qed.

Lemma duty_for_temp_cases (temp_max duty : Z) :
  In (duty_for_temp temp_max duty) [-1; 0; 17; 30; 40; 65].
Proof.
  unfold duty_for_temp.
  repeat match goal with
         | |- context [if ?b then _ else _] => destruct b; [cbn [In]; lia |]
         end.
  cbn [In]; lia.
Qed.

Lemma duty_for_temp_range (temp_max duty : Z) :
  -1 <= duty_for_temp temp_max duty <= 65.
Proof.
  pose proof (duty_for_temp_cases temp_max duty) as H. cbn [In] in H.
  repeat (destruct H as [H | H]; [lia |]). contradiction.
Qed.

(** Two levels of the list that are within 2 of each other are the same. *)
Lemma nonzero_levels_apart (a b : Z) :
  In a [16; 30; 40; 65; 90; 100] -> In b [16; 30; 40; 65; 90; 100] ->
  Z.abs (a - b) <= 2 -> a = b.
Proof.
  cbn [In]. intros Ha Hb H.
  repeat (destruct Ha as [Ha | Ha]; [subst a |]); try contradiction;
    repeat (destruct Hb as [Hb | Hb]; [subst b |]); try contradiction; lia.
Qed.

Lemma identify_duty_0_is_exact :
  In 0 allowed_duties /\ Z.abs (1 - 0) <= 1 /\ identify_duty 1 = 1 /\
  identify_duty (-1) = -1.
Proof. cbn. repeat split; lia. Qed.

(** C3, as stated, fails at 1: it is within 1 of the level 0, and is
    returned as it is, which is no level of the list. *)
Lemma identify_duty_1_not_canonical :
  (exists L, In L allowed_duties /\ Z.abs (1 - L) <= 1) /\
  ~ In (identify_duty 1) allowed_duties.
Proof.
  split.
  - exists 0. cbn. split; [left; reflexivity | lia].
  - cbn. lia.
Qed.

(** C3 (amended). [identify_duty x] is the level [L] whenever [x] is within
    1 of a non-zero level [L] of the list 16, 30, 40, 65, 90, 100, and is
    [x] itself otherwise, the level 0 being matched by 0 only; 17 goes to
    16 and 45 stays 45. *)
Theorem identify_duty_snaps_nonzero_levels (x : Z) :
  (forall L, In L [16; 30; 40; 65; 90; 100] -> Z.abs (x - L) <= 1 ->
             identify_duty x = L) /\
  ((forall L, In L [16; 30; 40; 65; 90; 100] -> 1 < Z.abs (x - L)) ->
   identify_duty x = x) /\
  identify_duty 17 = 16 /\ identify_duty 45 = 45.
Proof.
  split; [| split; [| split; reflexivity]].
  - intros L HL Hnear.
    destruct (identify_duty_cases x) as [[_ [E | Hfar]] | [Hin Hd]].
    + subst x. exfalso. cbn [In] in HL.
      repeat (destruct HL as [HL | HL]; [subst L; lia |]). contradiction.
    + specialize (Hfar L HL). lia.
    + apply nonzero_levels_apart; [assumption | assumption | lia].
  - intros Hfar.
    destruct (identify_duty_cases x) as [[E _] | [Hin Hd]]; [exact E |].
    specialize (Hfar _ Hin). lia.
Qed.

Lemma identify_duty_snaps_nonzero_levels_witness :
  identify_duty 17 = 16 /\ identify_duty 45 = 45.
Proof.
  destruct (identify_duty_snaps_nonzero_levels 17) as [Hsnap _].
  destruct (identify_duty_snaps_nonzero_levels 45) as [_ [Hkeep _]].
  split.
  - apply Hsnap; [cbn; lia | cbn; lia].
  - apply Hkeep. cbn [In]. intros L HL.
    repeat (destruct HL as [HL | HL]; [subst L; cbn; lia |]). contradiction.
Defined.

(** ** Register decoder *)

Lemma byte_values_complete (r : Z) : 0 <= r <= 255 -> In r byte_values.
Proof.
  intros H. unfold byte_values. apply in_map_iff.
  exists (Z.to_nat r). split; [lia |]. apply in_seq. lia.
Qed.

Lemma calculate_fan_duty_on_bytes :
  forallb (fun r => calculate_fan_duty r =? r * 100 / 255) byte_values = true.
Proof. vm_compute. reflexivity. Qed.

Lemma calculate_fan_duty_byte (r : Z) :
  0 <= r <= 255 -> calculate_fan_duty r = r * 100 / 255.
Proof.
  intros H. apply Z.eqb_eq.
  exact (proj1 (forallb_forall _ _) calculate_fan_duty_on_bytes r (byte_values_complete r H)).
Qed.

Lemma calculate_fan_duty_byte_range (r : Z) :
  0 <= r <= 255 -> 0 <= calculate_fan_duty r <= 100.
Proof.
  intros H. rewrite calculate_fan_duty_byte by assumption. split.
  - apply Z.div_pos; lia.
  - apply Z.div_le_upper_bound; lia.
Qed.

(** C4, as stated, fails at the raw byte 2: 2/255*100 is 0.78, which
    rounds to 1, and the decoder returns 0, more than one half away. *)
Lemma calculate_fan_duty_2_not_rounded :
  calculate_fan_duty 2 = 0 /\ duty_percent_rounded 2 = 1 /\
  255 < 2 * Z.abs (calculate_fan_duty 2 * 255 - 2 * 100).
Proof. vm_compute. repeat split; reflexivity. Qed.

(** C4 (amended). For a raw byte [r] the decoder returns [r * 100 / 255]
    truncated to an integer (not rounded): 100 for 255, 0 for 0, and never
    less for a larger byte. *)
Theorem calculate_fan_duty_truncates :
  (forall r, 0 <= r <= 255 -> calculate_fan_duty r = r * 100 / 255) /\
  calculate_fan_duty 255 = 100 /\
  calculate_fan_duty 0 = 0 /\
  (forall r1 r2, 0 <= r1 -> r1 <= r2 -> r2 <= 255 ->
                 calculate_fan_duty r1 <= calculate_fan_duty r2).
Proof.
  split; [exact calculate_fan_duty_byte |].
  split; [vm_compute; reflexivity |].
  split; [vm_compute; reflexivity |].
  intros r1 r2 H0 H12 H255.
  rewrite !calculate_fan_duty_byte by lia.
  apply Z.div_le_mono; lia.
Qed.

Lemma calculate_fan_duty_truncates_witness :
  calculate_fan_duty 43 = 16 /\ calculate_fan_duty 43 <= calculate_fan_duty 76.
Proof.
  destruct calculate_fan_duty_truncates as [Hdiv [_ [_ Hmono]]].
  split.
  - rewrite (Hdiv 43) by lia. reflexivity.
  - apply Hmono; lia.
Defined.

Lemma combined_bytes (hi lo : Z) :
  0 <= hi < 256 -> 0 <= lo < 256 -> combined hi lo = hi * 256 + lo.
Proof.
  intros Hhi Hlo. unfold combined.
  rewrite Z.shiftl_mul_pow2 by lia. change (2 ^ 8) with 256.
  rewrite <- Z.lxor_lor, <- Z.add_nocarry_lxor; try reflexivity.
  all: apply Z.bits_inj'; intros n Hn; rewrite Z.land_spec, Z.bits_0.
  all: destruct (Z_lt_le_dec n 8) as [Hlt | Hge].
  all: try (replace (hi * 256) with (hi * 2 ^ 8) by lia;
            rewrite Z.mul_pow2_bits_low by lia; reflexivity).
  all: replace (Z.testbit lo n) with false; [apply andb_false_r |].
  all: symmetry; apply Z.bits_above_log2; [lia |].
  all: destruct (Z.eq_dec lo 0) as [E | E]; [subst lo; cbn; lia |].
  all: apply Z.log2_lt_pow2; [lia |].
  all: apply Z.lt_le_trans with (2 ^ 8); [cbn; lia | apply Z.pow_le_mono_r; lia].
Qed.

Lemma raw_rpm_bytes (hi lo : Z) :
  0 <= hi < 256 -> 0 <= lo < 256 -> add32 (shl32 hi 8) lo = combined hi lo.
Proof.
  intros Hhi Hlo. rewrite combined_bytes by assumption.
  unfold add32, shl32. rewrite Z.shiftl_mul_pow2 by lia. change (2 ^ 8) with 256.
  rewrite (wrap32_small (hi * 256)) by int32_lia.
  apply wrap32_small. int32_lia.
Qed.

Lemma calculate_fan_rpms_bytes (hi lo : Z) :
  0 <= hi < 256 -> 0 <= lo < 256 -> 0 < combined hi lo ->
  calculate_fan_rpms hi lo = 2156220 / combined hi lo.
Proof.
  intros Hhi Hlo Hpos. unfold calculate_fan_rpms.
  rewrite raw_rpm_bytes by assumption.
  destruct (Z.gtb_spec (combined hi lo) 0) as [_ | Hle]; [| lia].
  apply Z.quot_div_nonneg; lia.
Qed.

(** C9, as stated, fails at the raw values 65534 and 65535: the second
    is larger and both decode to 32 RPM. *)
Lemma calculate_fan_rpms_not_strict :
  0 < combined 255 254 /\ combined 255 254 < combined 255 255 /\
  ~ calculate_fan_rpms 255 255 < calculate_fan_rpms 255 254.
Proof. vm_compute. repeat split; discriminate. Qed.

(** C9 (amended). [calculate_fan_rpms 0 0] is 0; for register bytes whose
    combined value [(hi << 8) | lo] is positive the result is
    [2156220 / combined], rounded down; and a larger combined value never
    gives a larger result (the results decrease weakly, not strictly). *)
Theorem calculate_fan_rpms_non_increasing :
  calculate_fan_rpms 0 0 = 0 /\
  (forall hi lo, 0 <= hi < 256 -> 0 <= lo < 256 -> 0 < combined hi lo ->
                 calculate_fan_rpms hi lo = 2156220 / combined hi lo) /\
  (forall hi1 lo1 hi2 lo2,
      0 <= hi1 < 256 -> 0 <= lo1 < 256 -> 0 <= hi2 < 256 -> 0 <= lo2 < 256 ->
      0 < combined hi1 lo1 -> combined hi1 lo1 < combined hi2 lo2 ->
      calculate_fan_rpms hi2 lo2 <= calculate_fan_rpms hi1 lo1).
Proof.
  split; [reflexivity |]. split; [exact calculate_fan_rpms_bytes |].
  intros hi1 lo1 hi2 lo2 H1 H2 H3 H4 Hpos Hlt.
  rewrite !calculate_fan_rpms_bytes by (assumption || lia).
  apply Z.div_le_compat_l; lia.
Qed.

Lemma calculate_fan_rpms_non_increasing_witness :
  calculate_fan_rpms 3 232 = 2156 /\
  calculate_fan_rpms 7 208 <= calculate_fan_rpms 3 232.
Proof.
  destruct calculate_fan_rpms_non_increasing as [_ [Hdiv Hmono]].
  split.
  - rewrite (Hdiv 3 232); [reflexivity | lia | lia | reflexivity].
  - apply (Hmono 3 232 7 208); try lia; reflexivity.
Defined.

(** ** Thermal control *)

(** The value [ec_auto_duty_adjust] returns does not depend on the world. *)
Lemma ec_auto_duty_adjust_value (cpu gpu fd : Z) (w : World) :
  value_of (ec_auto_duty_adjust cpu gpu fd) w =
  let duty := identify_duty fd in
  let target := duty_for_temp (Z.max cpu gpu) duty in
  if target >? fd then
    if sub32 target (adjusted_duty duty target fd) >? 2
    then adjusted_duty duty target fd else target
  else target.
Proof.
  unfold value_of, ec_auto_duty_adjust, adjusted_duty. cbv zeta.
  destruct (_ >? fd); [| reflexivity].
  destruct (_ >? 2); reflexivity.
Qed.

(** Without 32-bit overflow the smoothed duty is the plain arithmetic of
    the source; a duty above [int32_min + 66] never overflows. *)
Lemma adjusted_duty_exact (fd target : Z) :
  int32_min + 67 <= fd -> -1 <= target <= 65 -> fd < target ->
  adjusted_duty (identify_duty fd) target fd = identify_duty fd + (target - fd) / 2 /\
  sub32 target (adjusted_duty (identify_duty fd) target fd) =
  target - (identify_duty fd + (target - fd) / 2).
Proof.
  unfold int32_min. intros Hfd Ht Hlt.
  pose proof (identify_duty_near fd) as Hd.
  assert (Hq : 0 <= (target - fd) / 2 <= target - fd).
  { split; [apply Z.div_pos; lia | apply Z.div_le_upper_bound; lia]. }
  unfold adjusted_duty, add32, sub32.
  rewrite (wrap32_small (target - fd)) by int32_lia.
  rewrite Z.quot_div_nonneg by lia.
  rewrite (wrap32_small (identify_duty fd + _)) by int32_lia.
  split; [reflexivity |].
  apply wrap32_small. int32_lia.
Qed.

(** Whatever the inputs, the result is the duty of the table or a smoothed
    duty more than 2 below it. *)
Lemma ec_auto_duty_adjust_cases (cpu gpu fd : Z) (w : World) :
  let target := duty_for_temp (Z.max cpu gpu) (identify_duty fd) in
  let r := value_of (ec_auto_duty_adjust cpu gpu fd) w in
  r = target \/
  (fd < target /\ r = adjusted_duty (identify_duty fd) target fd /\ r < target - 2).
Proof.
  cbv zeta. rewrite ec_auto_duty_adjust_value. cbv zeta.
  set (target := duty_for_temp _ _).
  destruct (Z.gtb_spec target fd) as [Hgt | Hle]; [| left; reflexivity].
  destruct (Z.gtb_spec (sub32 target (adjusted_duty (identify_duty fd) target fd)) 2)
    as [Hadj | Hno]; [right | left; reflexivity].
  split; [lia |]. split; [reflexivity |].
  apply sub32_gt_2; [apply duty_for_temp_range | apply wrap32_range | lia].
Qed.

(** C10. [ec_auto_duty_adjust] never returns more than 65, so never the
    levels 90 and 100 of the list; 65 itself is returned, for instance at
    90 degrees from a duty of 63. *)
Theorem ec_auto_duty_adjust_ceiling (cpu gpu fd : Z) (w : World) :
  value_of (ec_auto_duty_adjust cpu gpu fd) w <= 65 /\
  value_of (ec_auto_duty_adjust cpu gpu fd) w <> 90 /\
  value_of (ec_auto_duty_adjust cpu gpu fd) w <> 100 /\
  value_of (ec_auto_duty_adjust 90 0 63) w = 65.
Proof.
  pose proof (duty_for_temp_range (Z.max cpu gpu) (identify_duty fd)) as Ht.
  destruct (ec_auto_duty_adjust_cases cpu gpu fd w) as [E | [_ [_ Hlt]]];
    cbv zeta in *.
  - rewrite E. repeat split; lia.
  - repeat split; lia.
Qed.

(** C1, as stated, fails: at 55 degrees a duty of 16 is raised to 17, and
    at 90 degrees a duty of 30 is raised to the smoothed value 47, neither
    of them a level of the list nor -1. *)
Lemma ec_auto_duty_adjust_not_canonical :
  value_of (ec_auto_duty_adjust 55 0 16) (ready_world []) = 17 /\
  value_of (ec_auto_duty_adjust 90 0 30) (ready_world []) = 47 /\
  ~ In 17 (-1 :: allowed_duties) /\ ~ In 47 (-1 :: allowed_duties).
Proof.
  rewrite !ec_auto_duty_adjust_value.
  split; [reflexivity |]. split; [reflexivity |]. cbn. lia.
Qed.

(** C1 (amended). [ec_auto_duty_adjust] returns the duty of its table,
    which is one of -1, 0, 17, 30, 40 and 65, or, when that exceeds
    [fan_duty], a smoothed duty more than 2 below it, which is
    [identify_duty fan_duty + (target - fan_duty) / 2] where the 32-bit
    arithmetic does not overflow. *)
Theorem ec_auto_duty_adjust_result (cpu gpu fd : Z) (w : World) :
  let target := duty_for_temp (Z.max cpu gpu) (identify_duty fd) in
  let r := value_of (ec_auto_duty_adjust cpu gpu fd) w in
  In target [-1; 0; 17; 30; 40; 65] /\
  (r = target \/
   (fd < target /\ r < target - 2 /\
    (int32_min + 67 <= fd -> r = identify_duty fd + (target - fd) / 2))).
Proof.
  cbv zeta. split; [apply duty_for_temp_cases |].
  destruct (ec_auto_duty_adjust_cases cpu gpu fd w) as [E | [Hlt [E Hr]]];
    cbv zeta in *; [left; exact E | right].
  split; [exact Hlt |]. split; [exact Hr |].
  intros Hfd. rewrite E.
  apply adjusted_duty_exact; [exact Hfd | apply duty_for_temp_range | exact Hlt].
Qed.

Lemma ec_auto_duty_adjust_result_witness :
  value_of (ec_auto_duty_adjust 90 0 30) (ready_world []) = 30 + (65 - 30) / 2.
Proof.
  destruct (ec_auto_duty_adjust_result 90 0 30 (ready_world [])) as [_ [E | [_ [_ E]]]].
  - rewrite ec_auto_duty_adjust_value in E. discriminate E.
  - apply E. unfold int32_min. lia.
Defined.

(** C2. When the duty of the table exceeds [fan_duty] (and the 32-bit
    arithmetic does not overflow) [ec_auto_duty_adjust] computes
    [adjusted = identify_duty fan_duty + (target - fan_duty) / 2] and returns
    it exactly when [target - adjusted > 2], the target otherwise; when the
    target does not exceed [fan_duty] it returns the target. At a maximum
    of 90 degrees with a duty of 30 the result is strictly between 30 and
    65 and nearer to 30; at 45 degrees with a duty of 65 it is 0. *)
Theorem ec_auto_duty_adjust_smoothing :
  (forall cpu gpu fd w,
      let duty := identify_duty fd in
      let target := duty_for_temp (Z.max cpu gpu) duty in
      let adjusted := duty + (target - fd) / 2 in
      let r := value_of (ec_auto_duty_adjust cpu gpu fd) w in
      (int32_min + 67 <= fd -> fd < target ->
       r = if target - adjusted >? 2 then adjusted else target) /\
      (target <= fd -> r = target)) /\
  (forall cpu gpu w,
      Z.max cpu gpu = 90 ->
      let r := value_of (ec_auto_duty_adjust cpu gpu 30) w in
      30 < r < 65 /\ r - 30 < 65 - r) /\
  (forall cpu gpu w,
      Z.max cpu gpu = 45 -> value_of (ec_auto_duty_adjust cpu gpu 65) w = 0).
Proof.
  split; [| split].
  - intros cpu gpu fd w. cbv zeta. rewrite ec_auto_duty_adjust_value. cbv zeta.
    set (target := duty_for_temp _ _). split.
    + intros Hfd Hlt.
      destruct (adjusted_duty_exact fd target Hfd (duty_for_temp_range _ _) Hlt)
        as [Ea Es].
      destruct (Z.gtb_spec target fd) as [_ | Hle]; [| lia].
      rewrite Es, Ea. reflexivity.
    + intros Hle. destruct (Z.gtb_spec target fd) as [Hgt | _]; [lia | reflexivity].
  - intros cpu gpu w Hmax. cbv zeta. rewrite ec_auto_duty_adjust_value, Hmax.
    vm_compute. repeat split; reflexivity.
  - intros cpu gpu w Hmax. rewrite ec_auto_duty_adjust_value, Hmax. reflexivity.
Qed.

Lemma ec_auto_duty_adjust_smoothing_witness :
  value_of (ec_auto_duty_adjust 90 60 30) (ready_world []) = 47 /\
  value_of (ec_auto_duty_adjust 45 70 40) (ready_world []) = 30 /\
  30 < value_of (ec_auto_duty_adjust 60 90 30) (ready_world []) < 65 /\
  value_of (ec_auto_duty_adjust 45 40 65) (ready_world []) = 0.
Proof.
  destruct ec_auto_duty_adjust_smoothing as (Hgen & H90 & H45).
  split; [| split; [| split]].
  - destruct (Hgen 90 60 30 (ready_world [])) as [Hup _].
    rewrite Hup; [reflexivity | unfold int32_min; lia | vm_compute; reflexivity].
  - destruct (Hgen 45 70 40 (ready_world [])) as [_ Hdown].
    rewrite Hdown; [reflexivity | vm_compute; discriminate].
  - apply (H90 60 90 (ready_world [])). reflexivity.
  - apply H45. reflexivity.
Defined.

(** ** EC protocol engine *)

Lemma ec_io_wait_loop_outcome (port flag value repeat_count : Z) (w : World) :
  repeat_count < 100 ->
  wait_outcome flag value (polls_left repeat_count) w
               (ec_io_wait_loop port flag value repeat_count w).
Proof.
  funelim (ec_io_wait_loop port flag value repeat_count w); intros Hrc;
    unfold wait_outcome.
  - exists 1%nat. cbn [fst snd]. unfold polls_left.
    split; [lia |]. split; [cbn; lia |]. split; [reflexivity |].
    split; [intros i Hi; lia |]. left. split; [reflexivity |].
    unfold flag_bit, poll. cbn [Nat.sub]. rewrite Nat.add_0_r. assumption.
  - exists 1%nat. cbn [fst snd]. unfold polls_left.
    split; [lia |]. split; [cbn; lia |]. split; [reflexivity |].
    split; [intros i Hi; lia |]. right. split; [reflexivity |].
    split; [lia |].
    unfold flag_bit, poll. cbn [Nat.sub]. rewrite Nat.add_0_r. assumption.
  - match goal with
    | IH : _ -> wait_outcome _ _ _ _ _ |- _ =>
        destruct (IH ltac:(lia)) as (m & Hm & Hcount & Hport & Hbefore & Hlast)
    end.
    cbn [snd sleep_for_microseconds emit log next_inb inb_count port_in] in *.
    assert (Hpoll : forall i,
               poll (mkWorld (port_in w) (S (inb_count w)) (ioperm_ret w)
                             (open_ret w) (open_count w) (read_ret w)
                             (read_count w) (signal_at w) (tick_count w)
                             (errno w) (global_running_flag w) (open_fds w)
                             ((trace w ++ [EvInb port (to_uint8 (port_in w (inb_count w)))])
                                ++ [EvSleepMicroseconds 1]))
                    i = poll w (S i)).
    { intros i. unfold poll. cbn [port_in inb_count]. f_equal. f_equal. lia. }
    exists (S m).
    assert (Hbudget : polls_left repeat_count = S (polls_left (repeat_count + 1))).
    { unfold polls_left. lia. }
    split; [lia |]. split; [lia |]. split; [exact Hport |].
    split.
    + intros i Hi. destruct i as [| i].
      * unfold flag_bit, poll. rewrite Nat.add_0_r. assumption.
      * rewrite <- Hpoll. apply Hbefore. lia.
    + replace (S m - 1)%nat with (S (m - 1)) by lia. rewrite <- Hpoll.
      destruct Hlast as [[Hr Hl] | [Hr [Hn Hl]]].
      * left. split; assumption.
      * right. split; [assumption |]. split; [lia | assumption].
Qed.

(** C6. [ec_io_wait] terminates in every world: it polls the status port at
    least once and at most 100 times, returns success at the first poll
    whose flag bit has the expected value, and returns [timed_out] when
    the first 100 polls all have another value. *)
Theorem ec_io_wait_terminates (port flag value : Z) (w : World) :
  exists n : nat,
    (1 <= n <= 100)%nat /\
    inb_count (world_after (ec_io_wait port flag value) w) = (inb_count w + n)%nat /\
    (forall i, (i < n - 1)%nat -> flag_bit flag (poll w i) <> value) /\
    ((value_of (ec_io_wait port flag value) w = Errc.success /\
      flag_bit flag (poll w (n - 1)) = value) \/
     (value_of (ec_io_wait port flag value) w = Errc.timed_out /\
      n = 100%nat /\ flag_bit flag (poll w (n - 1)) <> value)).
Proof.
  destruct (ec_io_wait_loop_outcome port flag value 0 w ltac:(lia))
    as (n & Hn & Hcount & _ & Hbefore & Hlast).
  change (polls_left 0) with 100%nat in Hn, Hlast.
  exists n. unfold value_of, world_after, ec_io_wait.
  repeat split; try assumption; lia.
Qed.

(** ** Control loop *)

Lemma port_writes_app (t1 t2 : list Event) :
  port_writes (t1 ++ t2) = (port_writes t1 ++ port_writes t2)%list.
Proof. apply filter_app. Qed.

(** The snapshot half of an iteration keeps [auto_duty_val] and does no
    port I/O. *)
Lemma ec_worker_snapshot_frame (c c1 : Control) (w w1 : World) :
  ec_worker_snapshot c w = (inr c1, w1) ->
  auto_duty_val c1 = auto_duty_val c /\
  port_writes (trace w1) = port_writes (trace w) /\
  inb_count w1 = inb_count w.
Proof.
  unfold ec_worker_snapshot, bind, sys_open, sys_read, sys_close, print, emit,
    get_errno, ret.
  destruct (open_ret w (open_count w)) as [fd | err]; cbn [fst snd].
  - destruct (fd <? 0); [discriminate |].
    cbn [read_ret read_count log set_open_fds next_open].
    destruct (read_ret w (read_count w)) as [bytes | err].
    + destruct (_ =? -1); [discriminate |].
      destruct (_ =? 256); intros E; injection E as <- <-;
        cbn [auto_duty_val trace inb_count log set_open_fds next_read next_open];
        rewrite !port_writes_app; cbn [port_writes filter is_outb];
        rewrite !app_nil_r; auto.
    + cbn. discriminate.
  - cbn. discriminate.
Qed.

(** When the chosen duty is -1 the control half of an iteration changes
    nothing of the loop's variables and does no port I/O. *)
Lemma ec_worker_control_no_change (c : Control) (w : World) :
  value_of (ec_auto_duty_adjust (cpu_temp c) (gpu_temp c) (fan_duty c)) w = -1 ->
  fst (ec_worker_control c w) = c /\
  port_writes (trace (snd (ec_worker_control c w))) = port_writes (trace w) /\
  inb_count (snd (ec_worker_control c w)) = inb_count w.
Proof.
  unfold value_of, ec_worker_control, bind.
  destruct (ec_auto_duty_adjust (cpu_temp c) (gpu_temp c) (fan_duty c) w)
    as [next_duty w1] eqn:Eadj.
  cbn [fst]. intros ->.
  change (-1 =? -1) with true. change (-1 =? 0) with false. cbn [negb andb orb].
  assert (Hw1 : port_writes (trace w1) = port_writes (trace w) /\
                inb_count w1 = inb_count w).
  { revert Eadj. unfold ec_auto_duty_adjust, bind, print, emit, ret. cbv zeta.
    destruct (_ >? fan_duty c); [destruct (_ >? 2) |]; intros E;
      injection E as _ <-; cbn [trace inb_count log];
      rewrite ?port_writes_app; cbn [port_writes filter is_outb];
      rewrite ?app_nil_r; auto. }
  destruct Hw1 as [Ht Hi].
  unfold ret, sleep_for_seconds, emit. cbn [fst snd trace inb_count log].
  rewrite port_writes_app. cbn [port_writes filter is_outb].
  rewrite app_nil_r. auto.
Qed.

(** C5. In an iteration of the loop whose snapshot succeeds and for which
    [ec_auto_duty_adjust] returns -1, nothing is written to the EC ports,
    the EC is not polled, and [auto_duty_val] is what it was. *)
Theorem ec_worker_no_change_no_write (c c1 : Control) (w w1 : World) :
  ec_worker_snapshot c w = (inr c1, w1) ->
  value_of (ec_auto_duty_adjust (cpu_temp c1) (gpu_temp c1) (fan_duty c1)) w1 = -1 ->
  exists (c2 : Control) (w2 : World),
    ec_worker_body c w = (inr c2, w2) /\
    auto_duty_val c2 = auto_duty_val c /\
    port_writes (trace w2) = port_writes (trace w) /\
    inb_count w2 = inb_count w.
Proof.
  intros Hsnap Hadj.
  destruct (ec_worker_snapshot_frame c c1 w w1 Hsnap) as (Hauto & Hwr & Hin).
  destruct (ec_worker_control_no_change c1 w1 Hadj) as (Hc & Hwr2 & Hin2).
  exists (fst (ec_worker_control c1 w1)), (snd (ec_worker_control c1 w1)).
  split.
  - unfold ec_worker_body, bind. rewrite Hsnap.
    destruct (ec_worker_control c1 w1); reflexivity.
  - rewrite Hc, Hwr2, Hin2. auto.
Qed.

Lemma ec_worker_no_change_no_write_witness :
  exists (c2 : Control) (w2 : World),
    ec_worker_body (mkControl 0 0 0 (-1)) (ready_world (ec_image 52 0 0)) = (inr c2, w2) /\
    auto_duty_val c2 = -1 /\
    port_writes (trace w2) = [] /\
    inb_count w2 = 0%nat.
Proof.
  apply (ec_worker_no_change_no_write
           (mkControl 0 0 0 (-1)) (mkControl 52 0 0 (-1))
           (ready_world (ec_image 52 0 0))
           (world_after (ec_worker_snapshot (mkControl 0 0 0 (-1)))
                        (ready_world (ec_image 52 0 0)))).
  - vm_compute. reflexivity.
  - vm_compute. reflexivity.
Defined.

Section Snapshot.

(** An iteration whose [open] succeeds with descriptor [fd]. *)
Variables (c : Control) (w : World) (fd : Z).
Hypothesis Hopen : open_ret w (open_count w) = OpenFd fd.
Hypothesis Hfd : 0 <= fd.

(** When [read] returns bytes, whatever their number, the descriptor that
    [open] returned is closed again before the snapshot half ends. *)
Lemma ec_worker_snapshot_closes (bytes : list Z) :
  read_ret w (read_count w) = ReadBytes bytes ->
  (exists c1, value_of (ec_worker_snapshot c) w = inr c1) /\
  ~ In fd (open_fds (world_after (ec_worker_snapshot c) w)) /\
  In (EvClose fd) (trace (world_after (ec_worker_snapshot c) w)).
Proof.
  intros Hread.
  unfold value_of, world_after, ec_worker_snapshot, bind, sys_open, sys_read,
    sys_close, print, emit, get_errno, ret.
  rewrite Hopen. destruct (Z.ltb_spec fd 0) as [Hneg | _]; [lia |].
  cbn [read_ret read_count log set_open_fds next_open]. rewrite Hread.
  set (len := Z.of_nat (List.length (firstn (Z.to_nat k.ec_reg_size) bytes))).
  destruct (Z.eqb_spec len (-1)) as [E | _]; [lia |].
  destruct (len =? 256); cbn [fst snd open_fds trace log set_open_fds next_read].
  all: split; [eexists; reflexivity |].
  all: split; [| apply in_or_app; right; left; reflexivity].
  all: intros Hin; apply filter_In in Hin; destruct Hin as [_ Hne].
  all: rewrite Z.eqb_refl in Hne; discriminate.
Qed.

(** When [read] fails, [ec_worker] returns [errno] at once: the descriptor
    stays open and no [close] is issued. *)
Lemma ec_worker_snapshot_read_error (err : Z) :
  read_ret w (read_count w) = ReadError err ->
  value_of (ec_worker_snapshot c) w = inl err /\
  In fd (open_fds (world_after (ec_worker_snapshot c) w)) /\
  trace (world_after (ec_worker_snapshot c) w) =
  (trace w ++ [EvOpen "/sys/kernel/debug/ec/ec0/io" fd; EvRead fd (-1);
               EvPrint MsgUnableToReadEC])%list.
Proof.
  intros Hread.
  unfold value_of, world_after, ec_worker_snapshot, bind, sys_open, sys_read,
    sys_close, print, emit, get_errno, ret.
  rewrite Hopen. destruct (Z.ltb_spec fd 0) as [Hneg | _]; [lia |].
  cbn [read_ret read_count log set_open_fds next_open]. rewrite Hread.
  cbn [fst snd Z.eqb Pos.eqb open_fds trace errno log set_open_fds set_errno next_read].
  split; [reflexivity |]. split; [left; reflexivity |].
  rewrite <- !app_assoc. reflexivity.
Qed.

End Snapshot.

(** C8: the code at the failing input. The world grants [open] descriptor 3
    and fails the [read]: the iteration returns the error with descriptor
    3 still open and without a [close] in its trace. *)
Theorem ec_worker_read_error_leaks_fd :
  value_of (ec_worker_snapshot (mkControl 0 0 0 (-1))) read_error_world = inl 5 /\
  In 3 (open_fds (world_after (ec_worker_snapshot (mkControl 0 0 0 (-1))) read_error_world)) /\
  ~ In (EvClose 3)
       (trace (world_after (ec_worker_snapshot (mkControl 0 0 0 (-1))) read_error_world)).
Proof.
  destruct (ec_worker_snapshot_read_error (mkControl 0 0 0 (-1)) read_error_world 3
              eq_refl ltac:(lia) 5 eq_refl) as (Hv & Hopen & Htrace).
  split; [exact Hv |]. split; [exact Hopen |].
  rewrite Htrace. cbn. intros [H | [H | [H | []]]]; discriminate H.
Qed.

(** ** Runs of the model *)

(** A duty write of 40% is the command byte 0x99 to the command port, the
    fan index 1 and the raw duty 102 to the data port, each after a poll of
    the status port. *)
Example ec_write_fan_duty_40 :
  trace (world_after (ec_write_fan_duty 40) (ready_world [])) =
  [EvInb k.ec_sc 1; EvOutb 0x99 k.ec_sc; EvInb k.ec_sc 1; EvOutb 1 k.ec_data;
   EvInb k.ec_sc 1; EvOutb 102 k.ec_data; EvInb k.ec_sc 1].
Proof. vm_compute. reflexivity. Qed.

(** With the input buffer of the EC stuck full, a write gives up after 100
    polls, before it has written anything. *)
Example ec_write_fan_duty_busy :
  let busy := mkWorld (fun _ => 2) 0 (fun _ => 0) (fun _ => OpenFd 3) 0
                      (fun _ => ReadBytes []) 0 (fun _ => None) 0 0 true [] [] in
  value_of (ec_write_fan_duty 40) busy = Errc.timed_out /\
  inb_count (world_after (ec_write_fan_duty 40) busy) = 100%nat /\
  port_writes (trace (world_after (ec_write_fan_duty 40) busy)) = [].
Proof. vm_compute. repeat split; reflexivity. Qed.

(** A duty of 17% is written as the raw byte 43, which reads back as 16%,
    the level of [allowed_duties]. *)
Example duty_17_reads_back_16 :
  port_writes (trace (world_after (ec_write_fan_duty 17) (ready_world []))) =
  [EvOutb 0x99 k.ec_sc; EvOutb 1 k.ec_data; EvOutb 43 k.ec_data] /\
  calculate_fan_duty 43 = 16.
Proof. vm_compute. split; reflexivity. Qed.

(** The worker at 90 degrees with the fan at 29%: one smoothed write of
    48%, then [SIGTERM] after the second iteration resets the fan to 40% and
    the loop ends with success. *)
Example worker_until_sigterm :
  let w := mkWorld (fun _ => 1) 0 (fun _ => 0) (fun _ => OpenFd 3) 0
                   (fun _ => ReadBytes (ec_image 90 60 76)) 0
                   (fun n => if Nat.eqb n 1 then Some SIGTERM else None)
                   0 0 true [] [] in
  value_of (main 5 ["clevo-fancontrol"; "-1"]%string) w = Some EXIT_SUCCESS /\
  filter (fun e => match e with
                   | EvPrint (MsgAutoFanDuty _ _ _) | EvPrint (MsgOnSignal _ _) => true
                   | _ => false
                   end)
         (trace (world_after (main 5 ["clevo-fancontrol"; "-1"]%string) w)) =
  [EvPrint (MsgAutoFanDuty 90 60 48); EvPrint (MsgOnSignal SIGTERM 40)] /\
  open_fds (world_after (main 5 ["clevo-fancontrol"; "-1"]%string) w) = [].
Proof. vm_compute. repeat split; reflexivity. Qed.

(** ** Command line *)

Example from_chars_examples :
  from_chars "50" indeterminate = (Errc.success, 50) /\
  from_chars "-1" indeterminate = (Errc.success, -1) /\
  from_chars "12abc" indeterminate = (Errc.success, 12) /\
  from_chars "+5" indeterminate = (Errc.invalid_argument, indeterminate) /\
  from_chars "-" indeterminate = (Errc.invalid_argument, indeterminate) /\
  from_chars "99999999999" indeterminate = (Errc.result_out_of_range, indeterminate).
Proof. vm_compute. repeat split; reflexivity. Qed.

Lemma ec_init_granted (w : World) :
  ioperm_ret w k.ec_data = 0 -> ioperm_ret w k.ec_sc = 0 ->
  ec_init w = (0, log (EvIoperm k.ec_sc) (log (EvIoperm k.ec_data) w)).
Proof.
  intros Hdata Hsc. unfold ec_init, bind, ioperm.
  rewrite Hdata. cbn [Z.eqb negb ioperm_ret log]. rewrite Hsc. reflexivity.
Qed.

(** An argument that [ec_main] rejects makes the process exit with the
    status of the [from_chars] error code alone: failure when the argument
    does not parse, success when it parses to a number outside -1..100. *)
Lemma main_rejected_argument (fuel : nat) (args : list string) (w : World)
      (ec val : Z) :
  ioperm_ret w k.ec_data = 0 -> ioperm_ret w k.ec_sc = 0 ->
  (1 < List.length args)%nat -> existsb is_help (skipn 1 args) = false ->
  from_chars (nth 1 args EmptyString) indeterminate = (ec, val) ->
  ec <> 0 \/ val < -1 \/ 100 < val ->
  value_of (main fuel args) w =
    Some (if ec =? 0 then EXIT_SUCCESS else EXIT_FAILURE) /\
  port_writes (trace (world_after (main fuel args) w)) = port_writes (trace w) /\
  In (EvPrint (MsgInvalidFanDuty (nth 1 args EmptyString)))
     (trace (world_after (main fuel args) w)).
Proof.
  intros Hdata Hsc Hlen Hhelp Hparse Hbad.
  unfold value_of, world_after, main, ec_main, bind.
  rewrite (ec_init_granted w Hdata Hsc).
  change (negb (0 =? 0)) with false. cbv iota.
  destruct (Nat.leb_spec (List.length args) 1) as [Hle | _]; [lia |].
  rewrite Hhelp, Hparse.
  assert (Hcond : negb (ec =? 0) || (val <? -1) || (val >? 100) = true).
  { destruct (Z.eqb_spec ec 0) as [E | E]; [| reflexivity].
    destruct (Z.ltb_spec val (-1)); [reflexivity |].
    destruct (Z.gtb_spec val 100); [reflexivity | lia]. }
  rewrite Hcond. unfold print, emit, ret.
  destruct (ec =? 0) eqn:E; cbn [negb fst snd trace log]; rewrite ?E;
    cbn [negb]; rewrite !port_writes_app; cbn [port_writes filter is_outb];
    rewrite !app_nil_r; (split; [reflexivity |]); (split; [reflexivity |]);
    rewrite !in_app_iff; cbn [In]; tauto.
Qed.

(** C7: the code at the failing input. With the ports granted, the
    argument 101 is reported as an invalid fan duty and nothing is written
    to the EC, yet the exit status is [EXIT_SUCCESS]; an argument that is
    no number exits with [EXIT_FAILURE]. *)
Theorem main_out_of_range_duty_exits_0 :
  value_of (main 0 ["clevo-fancontrol"; "101"]%string) (ready_world []) =
    Some EXIT_SUCCESS /\
  In (EvPrint (MsgInvalidFanDuty "101"))
     (trace (world_after (main 0 ["clevo-fancontrol"; "101"]%string) (ready_world []))) /\
  port_writes
    (trace (world_after (main 0 ["clevo-fancontrol"; "101"]%string) (ready_world []))) = [] /\
  value_of (main 0 ["clevo-fancontrol"; "fast"]%string) (ready_world []) =
    Some EXIT_FAILURE.
Proof.
  destruct (main_rejected_argument 0 ["clevo-fancontrol"; "101"]%string
              (ready_world []) 0 101 eq_refl eq_refl ltac:(cbn; lia) eq_refl eq_refl
              ltac:(lia)) as (Hv & Hw & Hp).
  destruct (main_rejected_argument 0 ["clevo-fancontrol"; "fast"]%string
              (ready_world []) Errc.invalid_argument indeterminate
              eq_refl eq_refl ltac:(cbn; lia) eq_refl eq_refl
              ltac:(left; discriminate)) as (Hv' & _ & _).
  repeat split; assumption.
Qed.

(** * Further properties *)

(** ** Effects of the primitives *)

Lemma port_only_ret {A : Type} (a : A) : port_only (ret a).
Proof. intros w. split; [reflexivity | apply Nat.le_refl]. Qed.

Lemma port_only_bind {A B : Type} (m : M A) (f : A -> M B) :
  port_only m -> (forall a, port_only (f a)) -> port_only (bind m f).
Proof.
  intros Hm Hf w. unfold port_only, world_after, bind in *.
  specialize (Hm w). destruct (m w) as [a w1]. cbn [snd] in Hm.
  specialize (Hf a w1). destruct Hm as [Ho Hi], Hf as [Ho' Hi'].
  split; [rewrite Ho'; exact Ho | lia].
Qed.

Lemma port_only_emit (e : Event) : port_only (emit e).
Proof. intros w. split; [reflexivity | apply Nat.le_refl]. Qed.

Lemma port_only_inb (port : Z) : port_only (inb port).
Proof. intros w. split; [reflexivity | cbn; lia]. Qed.

Lemma outside_ports_log (e : Event) (w : World) :
  outside_ports (log e w) = outside_ports w.
Proof. reflexivity. Qed.

Lemma inb_count_log (e : Event) (w : World) : inb_count (log e w) = inb_count w.
Proof. reflexivity. Qed.

Lemma fields_of_log (e : Event) (w : World) :
  fields_of (trace (log e w)) =
  (fields_of (trace w) ++ (if is_dump_field e then [e] else []))%list.
Proof.
  cbn [trace log]. unfold fields_of. rewrite filter_app. cbn [filter].
  destruct (is_dump_field e); reflexivity.
Qed.

Lemma port_writes_log (e : Event) (w : World) :
  port_writes (trace (log e w)) =
  (port_writes (trace w) ++ (if is_outb e then [e] else []))%list.
Proof.
  cbn [trace log]. rewrite port_writes_app. cbn [port_writes filter].
  destruct (is_outb e); reflexivity.
Qed.

(** ** EC protocol engine *)

(** A wait does port reads, sleeps and prints only. *)
Lemma ec_io_wait_loop_frame (port flag value repeat_count : Z) (w : World) :
  outside_ports (snd (ec_io_wait_loop port flag value repeat_count w)) = outside_ports w /\
  exists evs,
    trace (snd (ec_io_wait_loop port flag value repeat_count w)) = (trace w ++ evs)%list /\
    forallb is_wait_event evs = true.
Proof.
  funelim (ec_io_wait_loop port flag value repeat_count w).
  - cbn [snd]. split; [reflexivity |]. eexists. split; reflexivity.
  - cbn [snd print emit]. split; [reflexivity |].
    eexists. cbn [trace log]. rewrite <- app_assoc. split; reflexivity.
  - match goal with
    | IH : _ /\ _ |- _ => destruct IH as (Ho & evs & Ht & Hevs)
    end.
    split; [rewrite Ho; reflexivity |].
    eexists. rewrite Ht. cbn [snd sleep_for_microseconds emit trace log].
    rewrite <- !app_assoc. split; [reflexivity |].
    cbn [app forallb is_wait_event andb]. exact Hevs.
Qed.

Lemma filter_wait_events (f : Event -> bool) (evs : list Event) :
  (forall e, is_wait_event e = true -> f e = false) ->
  forallb is_wait_event evs = true -> filter f evs = [].
Proof.
  intros Hf. induction evs as [| e evs IH]; [reflexivity |].
  cbn [forallb filter]. intros H. apply andb_true_iff in H. destruct H as [He Hevs].
  rewrite (Hf e He). exact (IH Hevs).
Qed.

Lemma ec_io_wait_spec (port flag value : Z) (w : World) :
  (value_of (ec_io_wait port flag value) w = Errc.success \/
   value_of (ec_io_wait port flag value) w = Errc.timed_out) /\
  outside_ports (world_after (ec_io_wait port flag value) w) = outside_ports w /\
  port_writes (trace (world_after (ec_io_wait port flag value) w)) =
  port_writes (trace w) /\
  (inb_count w < inb_count (world_after (ec_io_wait port flag value) w)
   <= inb_count w + 100)%nat /\
  fields_of (trace (world_after (ec_io_wait port flag value) w)) =
  fields_of (trace w).
Proof.
  unfold value_of, world_after, ec_io_wait.
  destruct (ec_io_wait_loop_frame port flag value 0 w) as (Ho & evs & Ht & Hevs).
  destruct (ec_io_wait_loop_outcome port flag value 0 w ltac:(lia))
    as (n & Hn & Hcount & _ & _ & Hlast).
  change (polls_left 0) with 100%nat in Hn.
  split; [destruct Hlast as [[Hr _] | [Hr _]]; [left | right]; exact Hr |].
  split; [exact Ho |].
  split; [| split; [lia |]]; rewrite Ht; unfold port_writes, fields_of;
    rewrite filter_app, (filter_wait_events _ evs), app_nil_r;
    try reflexivity; try exact Hevs;
    intros [] He; try discriminate He; try reflexivity;
    match goal with m : Msg |- _ => destruct m; try discriminate He; reflexivity end.
Qed.

Lemma port_only_ec_io_wait (port flag value : Z) : port_only (ec_io_wait port flag value).
Proof.
  intros w. destruct (ec_io_wait_spec port flag value w) as (_ & Ho & _ & Hi & _).
  split; [exact Ho | lia].
Qed.

(** Runs the next [ec_io_wait] of the goal from world [w], naming its result
    [e], its final world [w1] and what is known of them [H]. *)
Ltac run_wait w e w1 H :=
  match goal with
  | |- context [ec_io_wait ?p ?f ?v w] =>
      pose proof (ec_io_wait_spec p f v w) as H;
      unfold value_of, world_after in H; revert H;
      destruct (ec_io_wait p f v w) as [e w1]; cbn [fst snd]; intros H
  end.

Lemma is_prefix_nil {A : Type} (l : list A) : is_prefix [] l.
Proof. exists l. reflexivity. Qed.

Lemma is_prefix_refl {A : Type} (l : list A) : is_prefix l l.
Proof. exists []. symmetry. apply app_nil_r. Qed.

Lemma ec_io_do_spec (cmd port value : Z) (w : World) :
  (value_of (ec_io_do cmd port value) w = Errc.success \/
   value_of (ec_io_do cmd port value) w = Errc.timed_out) /\
  outside_ports (world_after (ec_io_do cmd port value) w) = outside_ports w /\
  (inb_count w < inb_count (world_after (ec_io_do cmd port value) w)
   <= inb_count w + 400)%nat /\
  exists ws,
    writes_of (ec_io_do cmd port value) w ws /\
    is_prefix ws (io_do_bytes cmd port value) /\
    (value_of (ec_io_do cmd port value) w = Errc.success ->
     ws = io_do_bytes cmd port value).
Proof.
  unfold writes_of, value_of, world_after, ec_io_do, bind.
  run_wait w e1 w1 H1. destruct H1 as ([-> | ->] & Ho1 & Hp1 & Hi1 & _).
  2: { change (negb (Errc.timed_out =? 0)) with true. cbn [ret fst snd].
       split; [right; reflexivity |]. split; [exact Ho1 |]. split; [lia |].
       exists []. rewrite app_nil_r.
       split; [exact Hp1 |]. split; [apply is_prefix_nil | discriminate]. }
  change (negb (Errc.success =? 0)) with false. cbn [outb emit fst snd].
  run_wait (log (EvOutb (to_uint8 cmd) k.ec_sc) w1) e2 w2 H2.
  destruct H2 as ([-> | ->] & Ho2 & Hp2 & Hi2 & _);
    rewrite port_writes_log in Hp2; rewrite outside_ports_log in Ho2;
    rewrite inb_count_log in Hi2; cbn [is_outb] in Hp2.
  2: { change (negb (Errc.timed_out =? 0)) with true. cbn [ret fst snd].
       split; [right; reflexivity |]. split; [congruence |]. split; [lia |].
       exists [EvOutb (to_uint8 cmd) k.ec_sc].
       split; [congruence |]. split; [eexists; reflexivity | discriminate]. }
  change (negb (Errc.success =? 0)) with false. cbn [outb emit fst snd].
  run_wait (log (EvOutb (to_uint8 port) k.ec_data) w2) e3 w3 H3.
  destruct H3 as ([-> | ->] & Ho3 & Hp3 & Hi3 & _);
    rewrite port_writes_log in Hp3; rewrite outside_ports_log in Ho3;
    rewrite inb_count_log in Hi3; cbn [is_outb] in Hp3.
  2: { change (negb (Errc.timed_out =? 0)) with true. cbn [ret fst snd].
       split; [right; reflexivity |]. split; [congruence |]. split; [lia |].
       exists [EvOutb (to_uint8 cmd) k.ec_sc; EvOutb (to_uint8 port) k.ec_data].
       split; [rewrite Hp3, Hp2, Hp1, <- app_assoc; reflexivity |].
       split; [eexists; reflexivity | discriminate]. }
  change (negb (Errc.success =? 0)) with false. cbn [outb emit fst snd].
  run_wait (log (EvOutb (to_uint8 value) k.ec_data) w3) e4 w4 H4.
  destruct H4 as (He4 & Ho4 & Hp4 & Hi4 & _);
    rewrite port_writes_log in Hp4; rewrite outside_ports_log in Ho4;
    rewrite inb_count_log in Hi4; cbn [is_outb] in Hp4.
  split; [exact He4 |]. split; [congruence |]. split; [lia |].
  exists (io_do_bytes cmd port value).
  split; [rewrite Hp4, Hp3, Hp2, Hp1, <- !app_assoc; reflexivity |].
  split; [apply is_prefix_refl | reflexivity].
Qed.

Lemma to_uint8_range (z : Z) : 0 <= to_uint8 z < 256.
Proof. unfold to_uint8. apply Z.mod_pos_bound. lia. Qed.

Lemma ec_io_read_spec (port : Z) (w : World) :
  0 <= value_of (ec_io_read port) w < 256 /\
  outside_ports (world_after (ec_io_read port) w) = outside_ports w /\
  (inb_count w + 4 <= inb_count (world_after (ec_io_read port) w)
   <= inb_count w + 301)%nat /\
  writes_of (ec_io_read port) w (io_read_bytes port) /\
  fields_of (trace (world_after (ec_io_read port) w)) = fields_of (trace w).
Proof.
  unfold writes_of, value_of, world_after, ec_io_read, bind.
  run_wait w e1 w1 H1. destruct H1 as (_ & Ho1 & Hp1 & Hi1 & Hf1).
  cbn [outb emit fst snd].
  run_wait (log (EvOutb (to_uint8 k.ec_sc_read_cmd) k.ec_sc) w1) e2 w2 H2.
  destruct H2 as (_ & Ho2 & Hp2 & Hi2 & Hf2).
  rewrite port_writes_log in Hp2. rewrite outside_ports_log in Ho2.
  rewrite inb_count_log in Hi2. rewrite fields_of_log in Hf2.
  cbn [is_outb is_dump_field] in Hp2, Hf2. rewrite app_nil_r in Hf2.
  cbn [outb emit fst snd].
  run_wait (log (EvOutb (to_uint8 port) k.ec_data) w2) e3 w3 H3.
  destruct H3 as (_ & Ho3 & Hp3 & Hi3 & Hf3).
  rewrite port_writes_log in Hp3. rewrite outside_ports_log in Ho3.
  rewrite inb_count_log in Hi3. rewrite fields_of_log in Hf3.
  cbn [is_outb is_dump_field] in Hp3, Hf3. rewrite app_nil_r in Hf3.
  unfold inb. cbn [fst snd].
  split; [apply to_uint8_range |].
  split; [rewrite outside_ports_log; change (outside_ports (next_inb w3))
            with (outside_ports w3); congruence |].
  split; [rewrite inb_count_log; cbn [inb_count next_inb]; lia |].
  split.
  - rewrite port_writes_log. cbn [is_outb trace next_inb]. rewrite app_nil_r.
    rewrite Hp3, Hp2, Hp1, <- !app_assoc. reflexivity.
  - rewrite fields_of_log. cbn [is_dump_field trace next_inb]. rewrite app_nil_r.
    congruence.
Qed.

Lemma port_only_ec_io_read (port : Z) : port_only (ec_io_read port).
Proof.
  intros w. destruct (ec_io_read_spec port w) as (_ & Ho & Hi & _ & _).
  split; [exact Ho | lia].
Qed.

(** Runs the next [ec_io_read] of the goal from world [w]. *)
Ltac run_read w v w1 H :=
  match goal with
  | |- context [ec_io_read ?p w] =>
      pose proof (ec_io_read_spec p w) as H;
      unfold writes_of, value_of, world_after in H; revert H;
      destruct (ec_io_read p w) as [v w1]; cbn [fst snd]; intros H
  end.

(** Moves the events that [H] logs in front of a world out of its facts. *)
Ltac norm_log H :=
  rewrite ?port_writes_log, ?outside_ports_log, ?inb_count_log, ?fields_of_log in H;
  cbn [is_outb is_dump_field] in H; rewrite ?app_nil_r in H.

(** ** Register decoder and queries *)

Lemma calculate_fan_rpms_bounds (hi lo : Z) :
  0 <= hi < 256 -> 0 <= lo < 256 ->
  (hi = 0 /\ lo = 0 /\ calculate_fan_rpms hi lo = 0) \/
  (0 < combined hi lo /\ 32 <= calculate_fan_rpms hi lo <= 2156220).
Proof.
  intros Hhi Hlo.
  destruct (Z.eq_dec hi 0) as [Eh | Nh]; [destruct (Z.eq_dec lo 0) as [El | Nl] |].
  - left. subst. repeat split; reflexivity.
  - right. pose proof (combined_bytes hi lo Hhi Hlo) as Ec.
    rewrite calculate_fan_rpms_bytes by lia. rewrite Ec.
    split; [lia |]. split.
    + apply Z.div_le_lower_bound; lia.
    + apply Z.div_le_upper_bound; lia.
  - right. pose proof (combined_bytes hi lo Hhi Hlo) as Ec.
    rewrite calculate_fan_rpms_bytes by lia. rewrite Ec.
    split; [lia |]. split.
    + apply Z.div_le_lower_bound; lia.
    + apply Z.div_le_upper_bound; lia.
Qed.

Lemma dump_fan_spec (w : World) :
  outside_ports (world_after dump_fan w) = outside_ports w /\
  (inb_count w <= inb_count (world_after dump_fan w) <= inb_count w + 1505)%nat /\
  writes_of dump_fan w dump_bytes /\
  exists duty rpms cpu gpu,
    fields_of (trace (world_after dump_fan w)) =
    (fields_of (trace w) ++
     [EvPrint (MsgDumpField "duty" duty); EvPrint (MsgDumpField "rpms" rpms);
      EvPrint (MsgDumpField "cpu_temp_cels" cpu);
      EvPrint (MsgDumpField "gpu_temp_cels" gpu)])%list /\
    0 <= duty <= 100 /\ (rpms = 0 \/ 32 <= rpms <= 2156220) /\
    0 <= cpu < 256 /\ 0 <= gpu < 256.
Proof.
  unfold writes_of, world_after, dump_fan, ec_query_fan_duty, ec_query_fan_rpms,
    ec_query_cpu_temp, ec_query_gpu_temp, bind, print, emit, ret.
  cbn [fst snd].
  run_read (log (EvPrint MsgDumpOpen) w) v1 w1 H1.
  destruct H1 as (Hv1 & Ho1 & Hi1 & Hp1 & Hf1).
  norm_log Ho1. norm_log Hi1. norm_log Hp1. norm_log Hf1.
  run_read (log (EvPrint (MsgDumpField "duty" (calculate_fan_duty v1))) w1) v2 w2 H2.
  destruct H2 as (Hv2 & Ho2 & Hi2 & Hp2 & Hf2).
  norm_log Ho2. norm_log Hi2. norm_log Hp2. norm_log Hf2.
  run_read w2 v3 w3 H3.
  destruct H3 as (Hv3 & Ho3 & Hi3 & Hp3 & Hf3).
  run_read (log (EvPrint (MsgDumpField "rpms" (calculate_fan_rpms v2 v3))) w3) v4 w4 H4.
  destruct H4 as (Hv4 & Ho4 & Hi4 & Hp4 & Hf4).
  norm_log Ho4. norm_log Hi4. norm_log Hp4. norm_log Hf4.
  run_read (log (EvPrint (MsgDumpField "cpu_temp_cels" v4)) w4) v5 w5 H5.
  destruct H5 as (Hv5 & Ho5 & Hi5 & Hp5 & Hf5).
  norm_log Ho5. norm_log Hi5. norm_log Hp5. norm_log Hf5.
  rewrite !outside_ports_log, !inb_count_log, !port_writes_log, !fields_of_log.
  cbn [is_outb is_dump_field]. rewrite !app_nil_r.
  split; [congruence |]. split; [lia |]. split.
  - rewrite Hp5, Hp4, Hp3, Hp2, Hp1. unfold dump_bytes.
    rewrite <- !app_assoc. reflexivity.
  - exists (calculate_fan_duty v1), (calculate_fan_rpms v2 v3), v4, v5.
    split; [rewrite Hf5, Hf4, Hf3, Hf2, Hf1, <- !app_assoc; reflexivity |].
    split; [apply calculate_fan_duty_byte_range; lia |].
    split; [| split; assumption].
    destruct (calculate_fan_rpms_bounds v2 v3 Hv2 Hv3) as [(_ & _ & E) | [_ Hb]];
      [left; exact E | right; exact Hb].
Qed.

Lemma port_only_dump_fan : port_only dump_fan.
Proof.
  intros w. destruct (dump_fan_spec w) as (Ho & Hi & _).
  split; [exact Ho | lia].
Qed.

(** ** The duty write *)

Lemma percent_values_complete (d : Z) : 0 <= d <= 100 -> In d percent_values.
Proof.
  intros H. unfold percent_values. apply in_map_iff.
  exists (Z.to_nat d). split; [lia |]. apply in_seq. lia.
Qed.

Lemma duty_raw_byte_on_percents :
  forallb (fun d => (duty_raw_byte d =? d * 255 / 100) &&
                    (d - 1 <=? calculate_fan_duty (duty_raw_byte d)) &&
                    (calculate_fan_duty (duty_raw_byte d) <=? d))
          percent_values = true.
Proof. vm_compute. reflexivity. Qed.

Lemma duty_raw_byte_percent (d : Z) :
  0 <= d <= 100 ->
  duty_raw_byte d = d * 255 / 100 /\
  d - 1 <= calculate_fan_duty (duty_raw_byte d) <= d.
Proof.
  intros H.
  pose proof (proj1 (forallb_forall _ _) duty_raw_byte_on_percents d
                (percent_values_complete d H)) as Hd.
  cbv beta in Hd. apply andb_true_iff in Hd. destruct Hd as [Hd H2].
  apply andb_true_iff in Hd. destruct Hd as [H0 H1].
  apply Z.eqb_eq in H0. apply Z.leb_le in H1. apply Z.leb_le in H2. auto.
Qed.

Lemma ec_write_fan_duty_rejected (d : Z) (w : World) :
  d < 0 \/ 100 < d ->
  ec_write_fan_duty d w = (Errc.invalid_argument, log (EvPrint (MsgWrongFanDuty d)) w).
Proof.
  intros H. unfold ec_write_fan_duty.
  destruct (Z.ltb_spec d 0); [reflexivity |].
  destruct (Z.gtb_spec d 100); [reflexivity | lia].
Qed.

Lemma ec_write_fan_duty_accepted (d : Z) :
  0 <= d <= 100 -> ec_write_fan_duty d = ec_io_do 0x99 0x01 (duty_raw_byte d).
Proof.
  intros H. unfold ec_write_fan_duty.
  destruct (Z.ltb_spec d 0); [lia |].
  destruct (Z.gtb_spec d 100); [lia | reflexivity].
Qed.

Lemma ec_write_fan_duty_spec (d : Z) (w : World) :
  outside_ports (world_after (ec_write_fan_duty d) w) = outside_ports w /\
  (inb_count w <= inb_count (world_after (ec_write_fan_duty d) w)
   <= inb_count w + 400)%nat /\
  exists ws,
    writes_of (ec_write_fan_duty d) w ws /\
    is_prefix ws (io_do_bytes 0x99 0x01 (duty_raw_byte d)) /\
    ((value_of (ec_write_fan_duty d) w = Errc.success /\ 0 <= d <= 100 /\
      ws = io_do_bytes 0x99 0x01 (duty_raw_byte d)) \/
     (value_of (ec_write_fan_duty d) w = Errc.timed_out /\ 0 <= d <= 100) \/
     (value_of (ec_write_fan_duty d) w = Errc.invalid_argument /\
      (d < 0 \/ 100 < d) /\ ws = [] /\
      inb_count (world_after (ec_write_fan_duty d) w) = inb_count w)).
Proof.
  destruct (Z_lt_le_dec d 0) as [Hneg | Hpos];
    [| destruct (Z_lt_le_dec 100 d) as [Hbig | Hsmall]].
  1, 2: unfold writes_of, value_of, world_after;
    rewrite ec_write_fan_duty_rejected by lia; cbn [fst snd];
    rewrite outside_ports_log, inb_count_log, port_writes_log;
    cbn [is_outb]; rewrite !app_nil_r;
    (split; [reflexivity |]); (split; [lia |]);
    exists []; rewrite app_nil_r; (split; [reflexivity |]);
    (split; [apply is_prefix_nil |]); right; right;
    (split; [reflexivity |]); (split; [lia |]); split; reflexivity.
  rewrite ec_write_fan_duty_accepted by lia.
  destruct (ec_io_do_spec 0x99 0x01 (duty_raw_byte d) w)
    as (Hr & Ho & Hi & ws & Hws & Hpre & Hfull).
  split; [exact Ho |]. split; [lia |].
  exists ws. split; [exact Hws |]. split; [exact Hpre |].
  destruct Hr as [Hr | Hr]; [left | right; left].
  - split; [exact Hr |]. split; [lia | exact (Hfull Hr)].
  - split; [exact Hr | lia].
Qed.

(** Runs the monadic call [call] of the goal, of which [spec] is known. *)
Ltac run_with spec call e w1 H :=
  pose proof spec as H; unfold writes_of, value_of, world_after in H; revert H;
  destruct call as [e w1]; cbn [fst snd]; intros H.

Lemma set_fan_spec (d : Z) (w : World) :
  outside_ports (world_after (set_fan d) w) = outside_ports w /\
  (inb_count w <= inb_count (world_after (set_fan d) w))%nat /\
  ((value_of (set_fan d) w = Errc.success /\ 0 <= d <= 100 /\
    writes_of (set_fan d) w (io_do_bytes 0x99 0x01 (duty_raw_byte d) ++ dump_bytes)) \/
   (value_of (set_fan d) w = Errc.timed_out /\ 0 <= d <= 100 /\
    exists ws, writes_of (set_fan d) w ws /\
               is_prefix ws (io_do_bytes 0x99 0x01 (duty_raw_byte d))) \/
   (value_of (set_fan d) w = Errc.invalid_argument /\ (d < 0 \/ 100 < d) /\
    writes_of (set_fan d) w [] /\
    inb_count (world_after (set_fan d) w) = inb_count w)).
Proof.
  unfold writes_of, value_of, world_after, set_fan, bind, print, emit.
  cbn [fst snd].
  run_with (ec_write_fan_duty_spec d (log (EvPrint (MsgChangeFanDuty d)) w))
           (ec_write_fan_duty d (log (EvPrint (MsgChangeFanDuty d)) w)) e w1 H.
  destruct H as (Ho & Hi & ws & Hws & Hpre & Hcase).
  norm_log Ho. norm_log Hi. norm_log Hws.
  destruct Hcase as [(-> & Hd & ->) | [(-> & Hd) | (-> & Hd & -> & Hsame)]].
  - change (negb (Errc.success =? 0)) with false. cbv beta iota.
    run_with (dump_fan_spec (log (EvPrint MsgNewline) w1))
             (dump_fan (log (EvPrint MsgNewline) w1)) u w2 H.
    destruct H as (Ho2 & Hi2 & Hp2 & _).
    norm_log Ho2. norm_log Hi2. norm_log Hp2.
    cbn [ret fst snd]. split; [congruence |]. split; [lia |]. left.
    split; [reflexivity |]. split; [exact Hd |].
    rewrite Hp2, Hws, <- app_assoc. reflexivity.
  - change (negb (Errc.timed_out =? 0)) with true. cbn [ret fst snd].
    split; [exact Ho |]. split; [lia |]. right; left.
    split; [reflexivity |]. split; [exact Hd |]. exists ws. split; assumption.
  - change (negb (Errc.invalid_argument =? 0)) with true. cbn [ret fst snd].
    split; [exact Ho |]. split; [lia |]. right; right.
    split; [reflexivity |]. split; [exact Hd |].
    norm_log Hsame. split; assumption.
Qed.

(** ** Shutdown guard *)

Lemma ec_on_sigterm_spec (signum : Z) (w : World) :
  outside_ports (world_after (ec_on_sigterm signum) w) =
  outside_ports (set_running_flag false w) /\
  (inb_count w <= inb_count (world_after (ec_on_sigterm signum) w))%nat /\
  exists ws,
    writes_of (ec_on_sigterm signum) w ws /\
    (ws = (io_do_bytes 0x99 0x01 102 ++ dump_bytes)%list \/
     is_prefix ws (io_do_bytes 0x99 0x01 102)).
Proof.
  unfold writes_of, world_after, ec_on_sigterm, bind, print, emit. cbn [fst snd].
  run_with (set_fan_spec 40 (set_running_flag false
                               (log (EvPrint (MsgOnSignal signum 40)) w)))
           (set_fan 40 (set_running_flag false
                          (log (EvPrint (MsgOnSignal signum 40)) w))) e w1 H.
  destruct H as (Ho & Hi & Hcase). cbn [ret snd].
  split; [exact Ho |]. split; [exact Hi |].
  change (duty_raw_byte 40) with 102 in Hcase.
  destruct Hcase as [(_ & _ & Hws) | [(_ & _ & ws & Hws & Hpre) | (_ & Hd & _)]];
    [| | lia].
  - eexists. split; [| left; reflexivity].
    rewrite Hws. cbn [trace set_running_flag]. rewrite port_writes_log.
    cbn [is_outb]. rewrite app_nil_r. reflexivity.
  - exists ws. split; [| right; exact Hpre].
    rewrite Hws. cbn [trace set_running_flag]. rewrite port_writes_log.
    cbn [is_outb]. rewrite app_nil_r. reflexivity.
Qed.

(** ** Thermal control *)

(** Settles the integer comparisons of the goal that linear arithmetic
    decides from the context. *)
Ltac decide_comparisons :=
  repeat match goal with
         | |- context [?a >=? ?b] =>
             first [ replace (a >=? b) with true
                       by (symmetry; apply Z.geb_le; lia)
                   | replace (a >=? b) with false
                       by (symmetry; rewrite Z.geb_leb; apply Z.leb_gt; lia) ]
         | |- context [?a <=? ?b] =>
             first [ replace (a <=? b) with true
                       by (symmetry; apply Z.leb_le; lia)
                   | replace (a <=? b) with false
                       by (symmetry; apply Z.leb_gt; lia) ]
         | |- context [?a <? ?b] =>
             first [ replace (a <? b) with true
                       by (symmetry; apply Z.ltb_lt; lia)
                   | replace (a <? b) with false
                       by (symmetry; apply Z.ltb_ge; lia) ]
         | |- context [?a >? ?b] =>
             first [ replace (a >? b) with true
                       by (symmetry; apply Z.gtb_lt; lia)
                   | replace (a >? b) with false
                       by (symmetry; rewrite Z.gtb_ltb; apply Z.ltb_ge; lia) ]
         end.

(** The temperature bands between the thresholds of the table. *)
Lemma temperature_bands (t : Z) :
  t <= 50 \/ 50 < t < 55 \/ 55 <= t <= 60 \/ 60 < t < 65 \/ 65 <= t <= 70 \/
  70 < t < 75 \/ 75 <= t <= 80 \/ 80 < t < 85 \/ t = 85 \/ 85 < t.
Proof. lia. Qed.

Lemma duty_bands (d : Z) :
  d < 17 \/ 17 <= d < 30 \/ 30 <= d < 40 \/ 40 <= d < 65 \/ 65 <= d.
Proof. lia. Qed.

(** The temperatures at which each duty of the table is chosen. *)
Lemma duty_for_temp_band (t d : Z) :
  (duty_for_temp t d = 65 -> 80 < t) /\
  (duty_for_temp t d = 40 -> 70 < t < 85) /\
  (duty_for_temp t d = 30 -> 60 < t < 75) /\
  (duty_for_temp t d = 17 -> 50 < t < 65) /\
  (duty_for_temp t d = 0 -> t <= 50).
Proof.
  unfold duty_for_temp.
  destruct (temperature_bands t) as [Ht | [Ht | [Ht | [Ht | [Ht | [Ht | [Ht | [Ht | [Ht | Ht]]]]]]]]];
    destruct (duty_bands d) as [Hd | [Hd | [Hd | [Hd | Hd]]]];
    decide_comparisons; cbn [andb];
    repeat match goal with |- _ /\ _ => split end;
    intros E; try discriminate E; lia.
Qed.

Lemma ec_auto_duty_adjust_settled (cpu gpu d : Z) (w : World) :
  let target := duty_for_temp (Z.max cpu gpu) d in
  let fd := calculate_fan_duty (duty_raw_byte target) in
  target <> -1 ->
  (value_of (ec_auto_duty_adjust cpu gpu fd) w = target \/
   value_of (ec_auto_duty_adjust cpu gpu fd) w = -1) /\
  (target = 0 -> fd = 0).
Proof.
  cbv zeta. set (t := Z.max cpu gpu). intros Hne.
  pose proof (duty_for_temp_band t d) as Hb.
  pose proof (duty_for_temp_cases t d) as Hc. cbn [In] in Hc.
  rewrite ec_auto_duty_adjust_value. cbv zeta. fold t.
  destruct Hc as [E | [E | [E | [E | [E | [E | []]]]]]]; rewrite <- E in *;
    [contradiction Hne; reflexivity | ..];
    match goal with
    | |- context [calculate_fan_duty (duty_raw_byte ?v)] =>
        let x := eval vm_compute in (calculate_fan_duty (duty_raw_byte v)) in
        change (calculate_fan_duty (duty_raw_byte v)) with x
    end;
    match goal with
    | |- context [identify_duty ?v] =>
        let x := eval vm_compute in (identify_duty v) in
        change (identify_duty v) with x
    end;
    (split; [| intros E0; first [reflexivity | discriminate E0]]);
    destruct (temperature_bands t)
      as [Ht | [Ht | [Ht | [Ht | [Ht | [Ht | [Ht | [Ht | [Ht | Ht]]]]]]]]];
    try (exfalso; lia);
    unfold duty_for_temp; decide_comparisons; cbn [andb];
    vm_compute; auto.
Qed.

Lemma identify_duty_nonneg (x : Z) : 0 <= x -> 0 <= identify_duty x.
Proof.
  intros Hx. destruct (identify_duty_cases x) as [[E _] | [Hin _]]; [lia |].
  cbn [In] in Hin. lia.
Qed.

Lemma ec_auto_duty_adjust_range (cpu gpu fd : Z) (w : World) :
  0 <= fd ->
  value_of (ec_auto_duty_adjust cpu gpu fd) w = -1 \/
  0 <= value_of (ec_auto_duty_adjust cpu gpu fd) w <= 65.
Proof.
  intros Hfd.
  pose proof (duty_for_temp_cases (Z.max cpu gpu) (identify_duty fd)) as Hc.
  cbn [In] in Hc.
  destruct (ec_auto_duty_adjust_cases cpu gpu fd w) as [E | (Hlt & E & Hr)];
    cbv zeta in *.
  - rewrite E. lia.
  - right. split; [| lia]. rewrite E.
    destruct (adjusted_duty_exact fd _ ltac:(unfold int32_min; lia)
                (duty_for_temp_range _ _) Hlt) as [-> _].
    pose proof (identify_duty_nonneg fd Hfd).
    assert (0 <= (duty_for_temp (Z.max cpu gpu) (identify_duty fd) - fd) / 2)
      by (apply Z.div_pos; lia).
    lia.
Qed.

(** X8. An escalation makes progress: when the duty of the table exceeds
    [fan_duty] (and the 32-bit arithmetic does not overflow), the duty that
    [ec_auto_duty_adjust] returns, smoothed or not, is strictly above
    [fan_duty] and at most the duty of the table. *)
Theorem ec_auto_duty_adjust_progress (cpu gpu fd : Z) (w : World) :
  int32_min + 67 <= fd ->
  fd < duty_for_temp (Z.max cpu gpu) (identify_duty fd) ->
  fd < value_of (ec_auto_duty_adjust cpu gpu fd) w
     <= duty_for_temp (Z.max cpu gpu) (identify_duty fd).
Proof.
  intros Hfd Hlt.
  pose proof (duty_for_temp_cases (Z.max cpu gpu) (identify_duty fd)) as Hc.
  destruct (ec_auto_duty_adjust_cases cpu gpu fd w) as [E | (_ & E & Hr)];
    cbv zeta in *; [rewrite E; lia |].
  split; [| lia]. revert Hr. rewrite E.
  destruct (adjusted_duty_exact fd _ Hfd (duty_for_temp_range _ _) Hlt) as [-> _].
  set (target := duty_for_temp _ _) in *.
  destruct (identify_duty_cases fd) as [[Eid _] | [Hin Hnear]].
  - rewrite Eid. intros Hr. Z.div_mod_to_equations. lia.
  - set (duty := identify_duty fd) in *. intros Hr.
    assert (Hq : 0 <= (target - fd) / 2) by (apply Z.div_pos; lia).
    destruct (Z.eq_dec duty (fd - 1)) as [Eprev | Nprev];
      [| Z.div_mod_to_equations; lia].
    cbn [In] in Hin, Hc.
    assert (Hx : target - fd <> 3) by lia.
    Z.div_mod_to_equations. lia.
Qed.

(** ** Control loop *)

Lemma ec_auto_duty_adjust_frame (cpu gpu fd : Z) (w : World) :
  outside_ports (world_after (ec_auto_duty_adjust cpu gpu fd) w) = outside_ports w /\
  inb_count (world_after (ec_auto_duty_adjust cpu gpu fd) w) = inb_count w /\
  writes_of (ec_auto_duty_adjust cpu gpu fd) w [].
Proof.
  unfold writes_of, world_after, ec_auto_duty_adjust, bind, print, emit, ret.
  cbv zeta. rewrite app_nil_r.
  destruct (_ >? fd); [destruct (_ >? 2) |]; cbn [fst snd];
    rewrite ?outside_ports_log, ?inb_count_log, ?port_writes_log;
    cbn [is_outb]; rewrite ?app_nil_r; auto.
Qed.

Lemma ec_worker_control_spec (c : Control) (w : World) :
  let next_duty := value_of (ec_auto_duty_adjust (cpu_temp c) (gpu_temp c) (fan_duty c)) w in
  outside_ports (world_after (ec_worker_control c) w) = outside_ports w /\
  (inb_count w <= inb_count (world_after (ec_worker_control c) w))%nat /\
  if duty_changed c next_duty then
    value_of (ec_worker_control c) w =
      mkControl (cpu_temp c) (gpu_temp c) (fan_duty c) next_duty /\
    exists ws, writes_of (ec_worker_control c) w ws /\
               is_prefix ws (io_do_bytes 0x99 0x01 (duty_raw_byte next_duty))
  else
    value_of (ec_worker_control c) w = c /\
    writes_of (ec_worker_control c) w [] /\
    inb_count (world_after (ec_worker_control c) w) = inb_count w.
Proof.
  cbv zeta. unfold writes_of, value_of, world_after, ec_worker_control, bind.
  fold (duty_changed c).
  run_with (ec_auto_duty_adjust_frame (cpu_temp c) (gpu_temp c) (fan_duty c) w)
           (ec_auto_duty_adjust (cpu_temp c) (gpu_temp c) (fan_duty c) w)
           next_duty w1 H.
  destruct H as (Ho & Hi & Hp). rewrite app_nil_r in Hp.
  fold (duty_changed c next_duty).
  destruct (duty_changed c next_duty).
  - unfold print, emit. cbn [fst snd].
    run_with (ec_write_fan_duty_spec next_duty
                (log (EvPrint (MsgAutoFanDuty (cpu_temp c) (gpu_temp c) next_duty)) w1))
             (ec_write_fan_duty next_duty
                (log (EvPrint (MsgAutoFanDuty (cpu_temp c) (gpu_temp c) next_duty)) w1))
             e w2 H.
    destruct H as (Ho2 & Hi2 & ws & Hws & Hpre & _).
    norm_log Ho2. norm_log Hi2. norm_log Hws.
    unfold ret, sleep_for_seconds, emit. cbn [fst snd].
    rewrite outside_ports_log, inb_count_log, port_writes_log.
    cbn [is_outb]. rewrite app_nil_r.
    split; [congruence |]. split; [lia |]. split; [reflexivity |].
    exists ws. split; [congruence | exact Hpre].
  - unfold ret, sleep_for_seconds, emit. cbn [fst snd].
    rewrite outside_ports_log, inb_count_log, port_writes_log.
    cbn [is_outb]. rewrite !app_nil_r.
    split; [exact Ho |]. split; [lia |]. split; [reflexivity |].
    split; [exact Hp | exact Hi].
Qed.

Lemma buf_at_image (bytes pad : list Z) (i : Z) :
  0 <= i < 256 -> (256 <= List.length bytes)%nat ->
  buf_at (map to_uint8 (firstn 256 bytes) ++ pad)%list i = image_byte bytes i.
Proof.
  intros Hi Hlen. unfold buf_at, image_byte.
  rewrite app_nth1 by (rewrite length_map, length_firstn; lia).
  change 0 with (to_uint8 0) at 1. rewrite map_nth, nth_firstn.
  destruct (Nat.ltb_spec (Z.to_nat i) 256); [reflexivity | lia].
Qed.

Section SnapshotOutcomes.

Variables (c : Control) (w : World).

(** [open] fails: the iteration returns [errno] and does nothing else. *)
Lemma ec_worker_snapshot_open_error (err : Z) :
  open_ret w (open_count w) = OpenError err ->
  ec_worker_snapshot c w =
  (inl err,
   log (EvPrint MsgUnableToReadEC)
       (log (EvOpen sysfs_path (-1)) (set_errno err (next_open w)))).
Proof.
  intros Hopen. unfold ec_worker_snapshot, bind, sys_open. rewrite Hopen.
  reflexivity.
Qed.

(** [read] fills the buffer: the three registers are decoded. *)
Lemma ec_worker_snapshot_full (fd : Z) (bytes : list Z) :
  open_ret w (open_count w) = OpenFd fd -> 0 <= fd ->
  read_ret w (read_count w) = ReadBytes bytes ->
  (256 <= List.length bytes)%nat ->
  value_of (ec_worker_snapshot c) w =
  inr (mkControl (image_byte bytes k.ec_reg_cpu_temp)
                 (image_byte bytes k.ec_reg_gpu_temp)
                 (calculate_fan_duty (image_byte bytes k.ec_reg_fan_duty))
                 (auto_duty_val c)).
Proof.
  intros Hopen Hfd Hread Hlen.
  unfold value_of, ec_worker_snapshot, bind, sys_open, sys_read.
  rewrite Hopen. destruct (Z.ltb_spec fd 0) as [Hneg | _]; [lia |].
  cbn [read_ret read_count log set_open_fds next_open]. rewrite Hread.
  change (Z.to_nat k.ec_reg_size) with 256%nat.
  rewrite length_firstn, Nat.min_l by exact Hlen.
  change (Z.of_nat 256 =? -1) with false. change (Z.of_nat 256 =? 256) with true.
  cbn [ret sys_close fst snd].
  rewrite !buf_at_image by (assumption || (unfold k.ec_reg_cpu_temp,
    k.ec_reg_gpu_temp, k.ec_reg_fan_duty; lia)).
  reflexivity.
Qed.

(** X11. When [read] returns fewer than 256 bytes the iteration keeps the
    temperatures, the duty and [auto_duty_val] it had, reports the length,
    closes the descriptor and goes on. *)
Theorem ec_worker_snapshot_short (fd : Z) (bytes : list Z) :
  open_ret w (open_count w) = OpenFd fd -> 0 <= fd ->
  read_ret w (read_count w) = ReadBytes bytes ->
  (List.length bytes < 256)%nat ->
  value_of (ec_worker_snapshot c) w = inr c /\
  trace (world_after (ec_worker_snapshot c) w) =
  (trace w ++ [EvOpen sysfs_path fd; EvRead fd (Z.of_nat (List.length bytes));
               EvPrint (MsgWrongECSize (Z.of_nat (List.length bytes)));
               EvClose fd])%list.
Proof.
  intros Hopen Hfd Hread Hlen.
  unfold value_of, world_after, ec_worker_snapshot, bind, sys_open, sys_read.
  rewrite Hopen. destruct (Z.ltb_spec fd 0) as [Hneg | _]; [lia |].
  cbn [read_ret read_count log set_open_fds next_open]. rewrite Hread.
  change (Z.to_nat k.ec_reg_size) with 256%nat.
  rewrite firstn_all2 by lia.
  destruct (Z.eqb_spec (Z.of_nat (List.length bytes)) (-1)) as [E | _]; [lia |].
  destruct (Z.eqb_spec (Z.of_nat (List.length bytes)) 256) as [E | _]; [lia |].
  cbn [ret sys_close print emit fst snd trace log set_open_fds next_read].
  split; [reflexivity |]. rewrite <- !app_assoc. reflexivity.
Qed.

(** Whatever [open] and [read] do, the snapshot half leaves the ports, the
    signals and the running flag alone and writes nothing to the EC. *)
Lemma ec_worker_snapshot_beside :
  beside_sysfs (world_after (ec_worker_snapshot c) w) = beside_sysfs w /\
  writes_of (ec_worker_snapshot c) w [].
Proof.
  unfold writes_of, world_after, ec_worker_snapshot, bind, sys_open, sys_read,
    sys_close, print, emit, get_errno, ret.
  rewrite app_nil_r.
  assert (Hdone : forall w', beside_sysfs w' = beside_sysfs w ->
                             port_writes (trace w') = port_writes (trace w) ->
                             beside_sysfs w' = beside_sysfs w /\
                             port_writes (trace w') = port_writes (trace w))
    by (intros; split; assumption).
  destruct (open_ret w (open_count w)) as [fd | err]; cbn [fst snd].
  - destruct (fd <? 0); cbn [fst snd].
    { apply Hdone; [reflexivity |].
      cbn [trace log set_open_fds next_open]. rewrite !port_writes_app.
      cbn [port_writes filter is_outb]. rewrite !app_nil_r. reflexivity. }
    cbn [read_ret read_count log set_open_fds next_open].
    destruct (read_ret w (read_count w)) as [bytes | err]; cbn [fst snd].
    + destruct (_ =? -1); [| destruct (_ =? 256)]; cbn [fst snd];
        (apply Hdone; [reflexivity |]);
        cbn [trace log set_open_fds next_read]; rewrite !port_writes_app;
        cbn [port_writes filter is_outb]; rewrite !app_nil_r; reflexivity.
    + cbn [Z.eqb Pos.eqb fst snd]. apply Hdone; [reflexivity |].
      cbn [trace log set_errno next_read]. rewrite !port_writes_app.
      cbn [port_writes filter is_outb]. rewrite !app_nil_r. reflexivity.
  - cbn [Z.ltb Z.compare fst snd]. apply Hdone; [reflexivity |].
    cbn [trace log set_errno next_open]. rewrite !port_writes_app.
    cbn [port_writes filter is_outb]. rewrite !app_nil_r. reflexivity.
Qed.

End SnapshotOutcomes.

Lemma beside_sysfs_loop_env (w w' : World) :
  beside_sysfs w' = beside_sysfs w -> loop_env w' = loop_env w.
Proof. unfold beside_sysfs, loop_env. intros H. injection H as ?. congruence. Qed.

Lemma outside_ports_loop_env (w w' : World) :
  outside_ports w' = outside_ports w -> loop_env w' = loop_env w.
Proof. unfold outside_ports, loop_env. intros H. injection H as ?. congruence. Qed.

Lemma outside_ports_open_fds (w w' : World) :
  outside_ports w' = outside_ports w -> open_fds w' = open_fds w.
Proof. unfold outside_ports. intros H. injection H as ?. congruence. Qed.

Lemma ec_worker_body_loop_env (c : Control) (w : World) :
  loop_env (world_after (ec_worker_body c) w) = loop_env w.
Proof.
  unfold world_after, ec_worker_body, bind.
  pose proof (ec_worker_snapshot_beside c w) as [Hb _]. unfold world_after in Hb.
  destruct (ec_worker_snapshot c w) as [[e | c1] w1]; cbn [snd] in *.
  - apply beside_sysfs_loop_env. exact Hb.
  - pose proof (ec_worker_control_spec c1 w1) as (Ho & _). unfold world_after in Ho.
    destruct (ec_worker_control c1 w1) as [c2 w2]. cbn [snd ret] in *.
    rewrite (outside_ports_loop_env _ _ Ho). apply beside_sysfs_loop_env. exact Hb.
Qed.

Lemma filter_absent (fd : Z) (fds : list Z) :
  ~ In fd fds -> filter (fun x => negb (x =? fd)) fds = fds.
Proof.
  induction fds as [| x fds IH]; [reflexivity |].
  cbn [In filter]. intros H.
  destruct (Z.eqb_spec x fd) as [E | _]; [exfalso; auto |].
  cbn [negb]. rewrite IH by auto. reflexivity.
Qed.

(** X13. An iteration that goes on to the next leaves the open descriptors
    as it found them, when [open] returned a fresh descriptor: the duty write
    and the sleep do not touch them and the descriptor of the snapshot is
    closed. *)
Theorem ec_worker_body_open_fds (c c2 : Control) (w w2 : World) (fd : Z) :
  open_ret w (open_count w) = OpenFd fd -> ~ In fd (open_fds w) ->
  ec_worker_body c w = (inr c2, w2) -> open_fds w2 = open_fds w.
Proof.
  intros Hopen Hfresh. unfold ec_worker_body, bind.
  destruct (ec_worker_snapshot c w) as [[e | c1] w1] eqn:Esnap; [discriminate |].
  pose proof (ec_worker_control_spec c1 w1) as (Ho & _). unfold world_after in Ho.
  destruct (ec_worker_control c1 w1) as [c2' w2']. cbn [snd ret] in *.
  intros E. injection E as _ <-.
  rewrite (outside_ports_open_fds _ _ Ho).
  revert Esnap. unfold ec_worker_snapshot, bind, sys_open, sys_read, sys_close,
    print, emit, get_errno, ret.
  rewrite Hopen. destruct (fd <? 0); [discriminate |].
  cbn [read_ret read_count log set_open_fds next_open].
  destruct (read_ret w (read_count w)) as [bytes | err]; [| cbn; discriminate].
  destruct (_ =? -1); [discriminate |].
  destruct (_ =? 256); intros E; injection E as _ <-;
    cbn [open_fds log set_open_fds next_read filter];
    rewrite Z.eqb_refl; cbn [negb]; apply filter_absent; exact Hfresh.
Qed.

Lemma loop_env_fields (w w' : World) :
  loop_env w' = loop_env w ->
  open_ret w' = open_ret w /\ read_ret w' = read_ret w /\
  signal_at w' = signal_at w /\ tick_count w' = tick_count w /\
  global_running_flag w' = global_running_flag w.
Proof. unfold loop_env. intros H. injection H as ?. auto. Qed.

(** After an iteration the pending signal, if any, has run the handler: the
    count of iterations is one more, and the flag is cleared when there was
    a signal and as before when there was none. *)
Lemma raise_pending_signal_spec (w : World) :
  open_ret (world_after raise_pending_signal w) = open_ret w /\
  read_ret (world_after raise_pending_signal w) = read_ret w /\
  signal_at (world_after raise_pending_signal w) = signal_at w /\
  tick_count (world_after raise_pending_signal w) = S (tick_count w) /\
  global_running_flag (world_after raise_pending_signal w) =
  match signal_at w (tick_count w) with
  | Some _ => false
  | None => global_running_flag w
  end.
Proof.
  unfold world_after, raise_pending_signal.
  destruct (signal_at w (tick_count w)) as [signum |]; [| cbn; auto 6].
  destruct (ec_on_sigterm_spec signum (next_tick w)) as (Ho & _).
  unfold world_after in Ho. unfold outside_ports in Ho. injection Ho as ?.
  cbn [set_running_flag next_tick open_ret read_ret signal_at tick_count
       global_running_flag] in *.
  auto 6.
Qed.

Lemma ec_worker_loop_flag_clear (fuel : nat) (c : Control) (w : World) :
  global_running_flag w = false ->
  ec_worker_loop (S fuel) c w = (Some Errc.success, log (EvPrint MsgWorkerQuit) w).
Proof.
  intros Hflag. cbn [ec_worker_loop]. unfold bind, read_running_flag.
  rewrite Hflag. reflexivity.
Qed.

(** X14. A signal raised after the [j]-th iteration from now ends the
    worker: it returns after at most [j + 1] iterations, whatever the EC
    and the sysfs file do. *)
Theorem ec_worker_loop_stops (j : nat) :
  forall (fuel : nat) (c : Control) (w : World) (signum : Z),
    signal_at w (tick_count w + j) = Some signum -> (j + 2 <= fuel)%nat ->
    (exists e, value_of (ec_worker_loop fuel c) w = Some e) /\
    (tick_count (world_after (ec_worker_loop fuel c) w) <= tick_count w + j + 1)%nat.
Proof.
  induction j as [| j IH]; intros fuel c w signum Hsig Hfuel;
    (destruct fuel as [| fuel]; [lia |]);
    unfold value_of, world_after;
    (destruct (global_running_flag w) eqn:Hflag;
     [| rewrite ec_worker_loop_flag_clear by exact Hflag; cbn [fst snd];
        split; [eexists; reflexivity | cbn; lia]]);
    cbn [ec_worker_loop]; unfold bind, read_running_flag; rewrite Hflag;
    pose proof (ec_worker_body_loop_env c w) as Henv; unfold world_after in Henv;
    (destruct (ec_worker_body c w) as [[e | c1] w1]; cbn [snd] in Henv;
     apply loop_env_fields in Henv; destruct Henv as (_ & _ & Hs1 & Ht1 & _);
     [cbn [ret fst snd]; split; [eexists; reflexivity | lia] |]);
    pose proof (raise_pending_signal_spec w1) as (_ & _ & Hs2 & Ht2 & Hf2);
    unfold world_after in Hs2, Ht2, Hf2;
    destruct (raise_pending_signal w1) as [u w2]; cbn [snd] in Hs2, Ht2, Hf2.
  - rewrite Nat.add_0_r in Hsig. rewrite Hs1, Ht1, Hsig in Hf2.
    destruct fuel as [| fuel]; [lia |].
    rewrite ec_worker_loop_flag_clear by exact Hf2. cbn [fst snd].
    split; [eexists; reflexivity |]. cbn [tick_count log]. lia.
  - destruct (IH fuel c1 w2 signum) as [Hres Hticks]; [| lia |].
    + rewrite Hs2, Hs1, Ht2, Ht1. rewrite <- Hsig. f_equal. lia.
    + unfold value_of, world_after in Hres, Hticks. split; [exact Hres | lia].
Qed.

(** X15. Without a signal and with [open] and [read] succeeding, the
    worker does not return: after any number of iterations it is still
    running, having done that many. *)
Theorem ec_worker_loop_runs (fuel : nat) :
  forall (c : Control) (w : World),
    undisturbed w ->
    value_of (ec_worker_loop fuel c) w = None /\
    tick_count (world_after (ec_worker_loop fuel c) w) = (tick_count w + fuel)%nat.
Proof.
  induction fuel as [| fuel IH]; intros c w Hw.
  - unfold value_of, world_after. cbn. split; [reflexivity | lia].
  - destruct Hw as (Hopen & Hread & Hsig & Hflag).
    unfold value_of, world_after. cbn [ec_worker_loop].
    unfold bind, read_running_flag. rewrite Hflag.
    pose proof (ec_worker_body_loop_env c w) as Henv. unfold world_after in Henv.
    destruct (Hopen (open_count w)) as (fd & Hfd & Hpos).
    destruct (Hread (read_count w)) as (bytes & Hbytes).
    destruct (ec_worker_snapshot_closes c w fd Hfd Hpos bytes Hbytes)
      as ((c1 & Hsnap) & _).
    unfold value_of in Hsnap.
    assert (Hbody : exists c2, fst (ec_worker_body c w) = inr c2).
    { unfold ec_worker_body, bind.
      destruct (ec_worker_snapshot c w) as [r w1]. cbn [fst] in Hsnap. subst r.
      destruct (ec_worker_control c1 w1) as [c2 w2]. eexists. reflexivity. }
    destruct Hbody as (c2 & Hbody).
    destruct (ec_worker_body c w) as [r w1]. cbn [fst snd] in Hbody, Henv. subst r.
    apply loop_env_fields in Henv. destruct Henv as (Ho1 & Hr1 & Hs1 & Ht1 & Hf1).
    pose proof (raise_pending_signal_spec w1) as (Ho2 & Hr2 & Hs2 & Ht2 & Hf2).
    unfold world_after in Ho2, Hr2, Hs2, Ht2, Hf2.
    destruct (raise_pending_signal w1) as [u w2].
    cbn [snd] in Ho2, Hr2, Hs2, Ht2, Hf2.
    rewrite Hs1, Hsig in Hf2.
    destruct (IH c2 w2) as [Hnone Hticks].
    { unfold undisturbed. rewrite Ho2, Ho1, Hr2, Hr1, Hs2, Hs1, Hf2, Hf1. auto. }
    unfold value_of, world_after in Hnone, Hticks.
    split; [exact Hnone | lia].
Qed.

(** ** Command line *)

Lemma ec_init_spec (w : World) :
  (ioperm_ret w k.ec_data <> 0 ->
   ec_init w = (ioperm_ret w k.ec_data, log (EvIoperm k.ec_data) w)) /\
  (ioperm_ret w k.ec_data = 0 ->
   ec_init w = (ioperm_ret w k.ec_sc,
                log (EvIoperm k.ec_sc) (log (EvIoperm k.ec_data) w))).
Proof.
  unfold ec_init, bind, ioperm. split; intros Hdata.
  - destruct (Z.eqb_spec (ioperm_ret w k.ec_data) 0) as [E | _]; [contradiction |].
    reflexivity.
  - rewrite Hdata. cbn [Z.eqb negb ioperm_ret log].
    destruct (Z.eqb_spec (ioperm_ret w k.ec_sc) 0) as [E | _];
      [rewrite E |]; reflexivity.
Qed.

Lemma ec_init_frame (w : World) :
  inb_count (world_after ec_init w) = inb_count w /\ writes_of ec_init w [].
Proof.
  unfold writes_of, world_after. rewrite app_nil_r.
  destruct (ec_init_spec w) as [Hfail Hok].
  destruct (Z.eq_dec (ioperm_ret w k.ec_data) 0) as [E | N];
    [rewrite (Hok E) | rewrite (Hfail N)]; cbn [snd];
    rewrite ?inb_count_log, ?port_writes_log; cbn [is_outb];
    rewrite ?app_nil_r; split; reflexivity.
Qed.

Lemma main_denied (fuel : nat) (args : list string) (w : World) :
  value_of ec_init w <> 0 ->
  value_of (main fuel args) w = Some EXIT_FAILURE /\
  inb_count (world_after (main fuel args) w) = inb_count w /\
  writes_of (main fuel args) w [].
Proof.
  unfold writes_of, value_of, world_after, main, ec_main, bind.
  pose proof (ec_init_frame w) as [Hi Hp]. unfold writes_of, world_after in Hi, Hp.
  destruct (ec_init w) as [err w1]. cbn [fst snd] in *. intros Herr.
  destruct (Z.eqb_spec err 0) as [E | _]; [contradiction |].
  cbn [negb]. unfold print, emit, ret. cbn [fst snd].
  destruct (Z.eqb_spec err 0) as [E | _]; [contradiction |]. cbn [negb].
  rewrite inb_count_log, port_writes_log. cbn [is_outb]. rewrite app_nil_r.
  auto.
Qed.

Section Granted.

Variables (fuel : nat) (args : list string) (w : World).
Hypothesis Hdata : ioperm_ret w k.ec_data = 0.
Hypothesis Hsc : ioperm_ret w k.ec_sc = 0.

(** X18. With the ports granted and no argument, or a help option anywhere
    after the program name (also behind a duty), the program only reads:
    its port writes are the five register reads of the dump, and the exit
    status is success whatever the EC answers. *)
Theorem main_dumps :
  (List.length args <= 1)%nat \/ existsb is_help (skipn 1 args) = true ->
  value_of (main fuel args) w = Some EXIT_SUCCESS /\
  writes_of (main fuel args) w dump_bytes.
Proof.
  intros Hargs.
  unfold writes_of, value_of, world_after, main, ec_main, bind.
  rewrite (ec_init_granted w Hdata Hsc).
  change (negb (0 =? 0)) with false. cbv iota.
  set (w0 := log (EvIoperm k.ec_sc) (log (EvIoperm k.ec_data) w)).
  assert (Hw0 : port_writes (trace w0) = port_writes (trace w)).
  { unfold w0. rewrite !port_writes_log. cbn [is_outb]. rewrite !app_nil_r.
    reflexivity. }
  destruct (Nat.leb_spec (List.length args) 1) as [Hle | Hgt].
  - run_with (dump_fan_spec w0) (dump_fan w0) u w1 H.
    destruct H as (_ & _ & Hp & _). cbn [ret fst snd negb Z.eqb].
    split; [reflexivity | congruence].
  - destruct Hargs as [Hle | Hhelp]; [lia |]. rewrite Hhelp.
    unfold print, emit. cbn [fst snd].
    run_with (dump_fan_spec (log (EvPrint MsgHelp) w0))
             (dump_fan (log (EvPrint MsgHelp) w0)) u w1 H.
    destruct H as (_ & _ & Hp & _). norm_log Hp. cbn [ret fst snd negb Z.eqb].
    split; [reflexivity | congruence].
Qed.

(** X19. With the ports granted and a duty from 0 to 100 as the argument,
    either the raw duty [val * 255 / 100] is written and the registers are
    dumped, with status success, or the write times out part of the way and
    the status is failure, with no dump. *)
Theorem main_sets_fan (val : Z) :
  (1 < List.length args)%nat -> existsb is_help (skipn 1 args) = false ->
  from_chars (nth 1 args EmptyString) indeterminate = (Errc.success, val) ->
  0 <= val <= 100 ->
  (value_of (main fuel args) w = Some EXIT_SUCCESS /\
   writes_of (main fuel args) w
             (io_do_bytes 0x99 0x01 (val * 255 / 100) ++ dump_bytes)) \/
  (value_of (main fuel args) w = Some EXIT_FAILURE /\
   exists ws, writes_of (main fuel args) w ws /\
              is_prefix ws (io_do_bytes 0x99 0x01 (val * 255 / 100))).
Proof.
  intros Hlen Hhelp Hparse Hval.
  unfold writes_of, value_of, world_after, main, ec_main, bind.
  rewrite (ec_init_granted w Hdata Hsc).
  change (negb (0 =? 0)) with false. cbv iota.
  set (w0 := log (EvIoperm k.ec_sc) (log (EvIoperm k.ec_data) w)).
  assert (Hw0 : port_writes (trace w0) = port_writes (trace w)).
  { unfold w0. rewrite !port_writes_log. cbn [is_outb]. rewrite !app_nil_r.
    reflexivity. }
  destruct (Nat.leb_spec (List.length args) 1) as [Hle | _]; [lia |].
  rewrite Hhelp, Hparse.
  change (negb (Errc.success =? 0)) with false.
  destruct (Z.ltb_spec val (-1)) as [Hlow | _]; [lia |].
  destruct (Z.gtb_spec val 100) as [Hhigh | _]; [lia |].
  destruct (Z.eqb_spec val (-1)) as [Hworker | _]; [lia |].
  cbn [orb].
  run_with (set_fan_spec val w0) (set_fan val w0) e w1 H.
  destruct H as (_ & _ & Hcase).
  destruct (duty_raw_byte_percent val Hval) as [Hraw _]. rewrite Hraw in Hcase.
  destruct Hcase as [(-> & _ & Hws) | [(-> & _ & ws & Hws & Hpre) | (_ & Hd & _)]];
    [left | right | lia].
  - change (negb (Errc.success =? 0)) with false. cbn [ret fst snd negb Z.eqb].
    split; [reflexivity | congruence].
  - change (negb (Errc.timed_out =? 0)) with true. cbv iota.
    unfold print, emit, ret. cbn [fst snd].
    change (negb (Errc.timed_out =? 0)) with true. cbv iota.
    split; [reflexivity |]. exists ws.
    rewrite port_writes_log. cbn [is_outb]. rewrite app_nil_r.
    split; [congruence | exact Hpre].
Qed.

End Granted.

(** * Further properties: statements *)

(** ** Startup *)

(** X1. [ec_init] succeeds exactly when both [ioperm] calls return 0. It
    returns what the first failing call returned, and when the data port
    is refused the command port is not asked for. *)
Theorem ec_init_fail_fast (w : World) :
  (value_of ec_init w = 0 <->
   ioperm_ret w k.ec_data = 0 /\ ioperm_ret w k.ec_sc = 0) /\
  (ioperm_ret w k.ec_data <> 0 ->
   value_of ec_init w = ioperm_ret w k.ec_data /\
   trace (world_after ec_init w) = (trace w ++ [EvIoperm k.ec_data])%list) /\
  (ioperm_ret w k.ec_data = 0 ->
   value_of ec_init w = ioperm_ret w k.ec_sc /\
   trace (world_after ec_init w) =
   (trace w ++ [EvIoperm k.ec_data; EvIoperm k.ec_sc])%list).
Proof.
  destruct (ec_init_spec w) as [Hfail Hok]. unfold value_of, world_after.
  split; [| split].
  - destruct (Z.eq_dec (ioperm_ret w k.ec_data) 0) as [E | N].
    + rewrite (Hok E). cbn [fst]. tauto.
    + rewrite (Hfail N). cbn [fst]. tauto.
  - intros N. rewrite (Hfail N). split; reflexivity.
  - intros E. rewrite (Hok E). cbn [fst snd trace log].
    rewrite <- app_assoc. split; reflexivity.
Qed.

Lemma ec_init_fail_fast_witness :
  value_of ec_init denied_world = -1 /\
  trace (world_after ec_init denied_world) = [EvIoperm k.ec_data] /\
  value_of ec_init (ready_world []) = 0.
Proof.
  destruct (ec_init_fail_fast denied_world) as (_ & Hfail & _).
  destruct (ec_init_fail_fast (ready_world [])) as (Hiff & _ & Hok).
  destruct (Hfail ltac:(discriminate)) as [Hv Ht].
  split; [exact Hv |]. split; [exact Ht |].
  apply Hiff. split; reflexivity.
Defined.

(** ** EC protocol engine *)



(** X3. [ec_io_read] never fails: whether its three waits time out or not,
    it writes the read command and the register address, and nothing else,
    does between 4 and 301 port reads, and returns a byte. It touches
    nothing but the ports and the trace. *)
Theorem ec_io_read_soft_failure (port : Z) (w : World) :
  0 <= value_of (ec_io_read port) w < 256 /\
  outside_ports (world_after (ec_io_read port) w) = outside_ports w /\
  (inb_count w + 4 <= inb_count (world_after (ec_io_read port) w)
   <= inb_count w + 301)%nat /\
  writes_of (ec_io_read port) w (io_read_bytes port).
Proof.
  destruct (ec_io_read_spec port w) as (Hv & Ho & Hi & Hw & _). auto.
Qed.

(** ** Register decoder and dump *)

(** X21. For register bytes, [calculate_fan_rpms] is 0 only for the raw
    value 0; every other raw value decodes to between 32 and 2156220 RPM. *)
Theorem calculate_fan_rpms_floor (hi lo : Z) :
  0 <= hi < 256 -> 0 <= lo < 256 ->
  (calculate_fan_rpms hi lo = 0 <-> hi = 0 /\ lo = 0) /\
  (calculate_fan_rpms hi lo <> 0 -> 32 <= calculate_fan_rpms hi lo <= 2156220).
Proof.
  intros Hhi Hlo.
  destruct (calculate_fan_rpms_bounds hi lo Hhi Hlo) as [(Eh & El & E) | [Hpos Hb]].
  - split; [tauto | intros N; contradiction].
  - pose proof (combined_bytes hi lo Hhi Hlo). split; [| intros _; exact Hb].
    split; [lia | intros [-> ->]; cbn in Hpos; lia].
Qed.

Lemma calculate_fan_rpms_floor_witness :
  32 <= calculate_fan_rpms 255 255 <= 2156220.
Proof.
  destruct (calculate_fan_rpms_floor 255 255 ltac:(lia) ltac:(lia)) as [_ Hb].
  apply Hb. vm_compute. discriminate.
Defined.

(** X20. Whatever the EC answers, [dump_fan] prints its four fields once
    each and in the order duty, rpms, cpu_temp_cels, gpu_temp_cels, with a
    duty from 0 to 100, a speed that is 0 or from 32 to 2156220 RPM and
    temperatures from 0 to 255; its port writes are the five register
    reads. *)
Theorem dump_fan_fields (w : World) :
  writes_of dump_fan w dump_bytes /\
  exists duty rpms cpu gpu,
    fields_of (trace (world_after dump_fan w)) =
    (fields_of (trace w) ++
     [EvPrint (MsgDumpField "duty" duty); EvPrint (MsgDumpField "rpms" rpms);
      EvPrint (MsgDumpField "cpu_temp_cels" cpu);
      EvPrint (MsgDumpField "gpu_temp_cels" gpu)])%list /\
    0 <= duty <= 100 /\ (rpms = 0 \/ 32 <= rpms <= 2156220) /\
    0 <= cpu < 256 /\ 0 <= gpu < 256.
Proof.
  destruct (dump_fan_spec w) as (_ & _ & Hw & Hfields). split; assumption.
Qed.

(** ** The duty write *)

(** X4. [ec_write_fan_duty] rejects a duty below 0 or above 100 with
    [invalid_argument]: it prints the message and does no port I/O. *)
Theorem ec_write_fan_duty_out_of_range (d : Z) (w : World) :
  d < 0 \/ 100 < d ->
  value_of (ec_write_fan_duty d) w = Errc.invalid_argument /\
  world_after (ec_write_fan_duty d) w = log (EvPrint (MsgWrongFanDuty d)) w.
Proof.
  intros H. unfold value_of, world_after.
  rewrite (ec_write_fan_duty_rejected d w H). split; reflexivity.
Qed.

Lemma ec_write_fan_duty_out_of_range_witness :
  value_of (ec_write_fan_duty 101) (ready_world []) = Errc.invalid_argument /\
  value_of (ec_write_fan_duty (-1)) (ready_world []) = Errc.invalid_argument.
Proof.
  split.
  - apply (ec_write_fan_duty_out_of_range 101 (ready_world [])). right. lia.
  - apply (ec_write_fan_duty_out_of_range (-1) (ready_world [])). left. lia.
Defined.

(** X5. For a duty [d] from 0 to 100 [ec_write_fan_duty] returns success or
    [timed_out], and what it writes to the ports is a prefix of the command
    0x99, the fan index 1 and the raw duty [d * 255 / 100] (rounded down);
    on success it is all three. *)
Theorem ec_write_fan_duty_in_range (d : Z) (w : World) :
  0 <= d <= 100 ->
  (value_of (ec_write_fan_duty d) w = Errc.success \/
   value_of (ec_write_fan_duty d) w = Errc.timed_out) /\
  exists ws,
    writes_of (ec_write_fan_duty d) w ws /\
    is_prefix ws (io_do_bytes 0x99 0x01 (d * 255 / 100)) /\
    (value_of (ec_write_fan_duty d) w = Errc.success ->
     ws = io_do_bytes 0x99 0x01 (d * 255 / 100)).
Proof.
  intros Hd. destruct (duty_raw_byte_percent d Hd) as [Hraw _].
  destruct (ec_write_fan_duty_spec d w) as (_ & _ & ws & Hws & Hpre & Hcase).
  rewrite Hraw in Hpre, Hcase.
  split; [destruct Hcase as [(E & _) | [(E & _) | (_ & Hout & _)]]; [auto | auto | lia] |].
  exists ws. split; [exact Hws |]. split; [exact Hpre |].
  intros E. destruct Hcase as [(_ & _ & Hfull) | [(E' & _) | (E' & _)]];
    [exact Hfull | |]; rewrite E in E'; discriminate E'.
Qed.

Lemma ec_write_fan_duty_in_range_witness :
  writes_of (ec_write_fan_duty 65) (ready_world [])
            [EvOutb 0x99 k.ec_sc; EvOutb 1 k.ec_data; EvOutb 165 k.ec_data] /\
  value_of (ec_write_fan_duty 65) busy_world = Errc.timed_out.
Proof.
  destruct (ec_write_fan_duty_in_range 65 (ready_world []) ltac:(lia))
    as (_ & ws & Hws & _ & Hfull).
  destruct (ec_write_fan_duty_in_range 65 busy_world ltac:(lia)) as ([E | E] & _).
  - vm_compute in E. discriminate E.
  - split; [| exact E]. rewrite (Hfull eq_refl) in Hws. exact Hws.
Defined.

(** X6. Writing a duty and reading it back loses at most one percent: for
    [d] from 0 to 100 the raw byte written decodes to [d - 1] or [d]. For
    the levels of [allowed_duties] and for the duty 17 of the table, what
    is read back is identified as the same level as the duty written. *)
Theorem duty_round_trip (d : Z) :
  0 <= d <= 100 ->
  d - 1 <= calculate_fan_duty (duty_raw_byte d) <= d /\
  (In d (17 :: allowed_duties) ->
   identify_duty (calculate_fan_duty (duty_raw_byte d)) = identify_duty d).
Proof.
  intros Hd. split; [apply duty_raw_byte_percent; exact Hd |].
  cbn [In allowed_duties]. intros Hin.
  repeat (destruct Hin as [<- | Hin]; [vm_compute; reflexivity |]).
  contradiction.
Qed.

Lemma duty_round_trip_witness :
  calculate_fan_duty (duty_raw_byte 17) = 16 /\
  identify_duty (calculate_fan_duty (duty_raw_byte 65)) = 65.
Proof.
  destruct (duty_round_trip 17 ltac:(lia)) as [Hnear _].
  destruct (duty_round_trip 65 ltac:(lia)) as [_ Hid].
  split.
  - assert (E : calculate_fan_duty (duty_raw_byte 17) <> 17)
      by (vm_compute; discriminate).
    lia.
  - rewrite Hid; [reflexivity | cbn; lia].
Defined.

(** ** Duty levels and thermal control *)

(** X22. [identify_duty] moves a duty by at most 1, is idempotent and keeps
    the order of duties. *)
Theorem identify_duty_idempotent (x y : Z) :
  Z.abs (identify_duty x - x) <= 1 /\
  identify_duty (identify_duty x) = identify_duty x /\
  (x <= y -> identify_duty x <= identify_duty y).
Proof.
  pose proof (identify_duty_near x) as Hx. split; [lia |]. split.
  - destruct (identify_duty_cases x) as [[E _] | [Hin _]]; [rewrite E; exact E |].
    cbn [In] in Hin.
    repeat (destruct Hin as [<- | Hin]; [reflexivity |]). contradiction.
  - intros Hxy. pose proof (identify_duty_near y) as Hy.
    destruct (identify_duty_cases x) as [[Ex Hfx] | [Hinx Hnx]];
      destruct (identify_duty_cases y) as [[Ey Hfy] | [Hiny Hny]].
    + lia.
    + destruct Hfx as [-> | Hfx]; [cbn [In] in Hiny; lia |].
      specialize (Hfx _ Hiny). lia.
    + destruct Hfy as [-> | Hfy]; [cbn [In] in Hinx; lia |].
      specialize (Hfy _ Hinx). lia.
    + destruct (Z_le_gt_dec (identify_duty x) (identify_duty y)) as [Hle | Hgt];
        [exact Hle |].
      assert (Hne : identify_duty x <> identify_duty y) by lia.
      exfalso. apply Hne. apply nonzero_levels_apart; [assumption | assumption | lia].
Qed.

Lemma identify_duty_idempotent_witness : identify_duty 17 <= identify_duty 18.
Proof.
  destruct (identify_duty_idempotent 17 18) as (_ & _ & Hmono).
  apply Hmono. lia.
Defined.

Lemma ec_auto_duty_adjust_progress_witness :
  30 < value_of (ec_auto_duty_adjust 90 60 30) (ready_world []) <= 65.
Proof.
  apply (ec_auto_duty_adjust_progress 90 60 30 (ready_world []));
    [unfold int32_min; lia | vm_compute; reflexivity].
Defined.

(** X9. From a duty that is not negative, as the decoder delivers it,
    [ec_auto_duty_adjust] returns -1 or a duty from 0 to 65; so a duty that
    the loop decides to write is from 0 to 65 and is never one that
    [ec_write_fan_duty] rejects. *)
Theorem ec_worker_written_duty_in_range (c : Control) (w : World) :
  0 <= fan_duty c ->
  let next_duty := value_of (ec_auto_duty_adjust (cpu_temp c) (gpu_temp c) (fan_duty c)) w in
  (next_duty = -1 \/ 0 <= next_duty <= 65) /\
  (duty_changed c next_duty = true -> 0 <= next_duty <= 65).
Proof.
  intros Hfd. cbv zeta.
  pose proof (ec_auto_duty_adjust_range (cpu_temp c) (gpu_temp c) (fan_duty c) w Hfd)
    as Hr.
  split; [exact Hr |]. unfold duty_changed. intros Hch.
  destruct Hr as [E | Hr]; [| exact Hr].
  rewrite E in Hch. cbn in Hch. discriminate Hch.
Qed.

Lemma ec_worker_written_duty_in_range_witness :
  0 <= value_of (ec_auto_duty_adjust 90 60 29) (ready_world []) <= 65.
Proof.
  destruct (ec_worker_written_duty_in_range (mkControl 90 60 29 (-1)) (ready_world [])
              ltac:(cbn; lia)) as [_ Hch].
  apply Hch. vm_compute. reflexivity.
Defined.

(** ** Control loop *)

(** X7. The loop settles: once it has written a duty of the table (not a
    smoothed one) and the fan reads back that duty, then at the same
    temperatures the next iteration leaves its variables as they are and
    does no port I/O. *)
Theorem ec_worker_steady_state (c : Control) (w : World) (d0 : Z) :
  let target := duty_for_temp (Z.max (cpu_temp c) (gpu_temp c)) d0 in
  target <> -1 ->
  auto_duty_val c = target ->
  fan_duty c = calculate_fan_duty (duty_raw_byte target) ->
  value_of (ec_worker_control c) w = c /\
  writes_of (ec_worker_control c) w [] /\
  inb_count (world_after (ec_worker_control c) w) = inb_count w.
Proof.
  cbv zeta. intros Hne Hauto Hfan.
  destruct (ec_auto_duty_adjust_settled (cpu_temp c) (gpu_temp c) d0 w Hne)
    as [Hnext Hzero].
  rewrite <- Hfan in Hnext, Hzero. rewrite <- Hauto in Hnext, Hzero.
  pose proof (ec_worker_control_spec c w) as (_ & _ & Hspec). cbv zeta in Hspec.
  assert (Hsame : duty_changed c (value_of (ec_auto_duty_adjust (cpu_temp c)
                                              (gpu_temp c) (fan_duty c)) w) = false).
  { unfold duty_changed. destruct Hnext as [E | E]; rewrite E.
    - rewrite Z.eqb_refl. cbn [negb]. rewrite andb_false_r. cbn [orb].
      destruct (Z.eqb_spec (auto_duty_val c) 0) as [E0 | _]; [| reflexivity].
      rewrite (Hzero E0). reflexivity.
    - reflexivity. }
  rewrite Hsame in Hspec. exact Hspec.
Qed.

Lemma ec_worker_steady_state_witness :
  value_of (ec_worker_control (mkControl 90 60 64 65)) (ready_world []) =
  mkControl 90 60 64 65.
Proof.
  apply (ec_worker_steady_state (mkControl 90 60 64 65) (ready_world []) 30).
  - vm_compute. discriminate.
  - vm_compute. reflexivity.
  - vm_compute. reflexivity.
Defined.



(** X10. When [read] fills the 256-byte buffer, the iteration takes the CPU
    temperature from register 0x07, the GPU temperature from 0xCD and the
    duty from 0xCE, keeps [auto_duty_val], and the values are a temperature
    from 0 to 255 each and a duty from 0 to 100. *)
Theorem ec_worker_snapshot_decodes (c : Control) (w : World) (fd : Z) (bytes : list Z) :
  open_ret w (open_count w) = OpenFd fd -> 0 <= fd ->
  read_ret w (read_count w) = ReadBytes bytes ->
  (256 <= List.length bytes)%nat ->
  exists c1,
    value_of (ec_worker_snapshot c) w = inr c1 /\
    cpu_temp c1 = image_byte bytes 0x07 /\
    gpu_temp c1 = image_byte bytes 0xCD /\
    fan_duty c1 = image_byte bytes 0xCE * 100 / 255 /\
    auto_duty_val c1 = auto_duty_val c /\
    0 <= cpu_temp c1 <= 255 /\ 0 <= gpu_temp c1 <= 255 /\ 0 <= fan_duty c1 <= 100.
Proof.
  intros Hopen Hfd Hread Hlen.
  eexists. split; [apply (ec_worker_snapshot_full c w fd bytes); assumption |].
  cbn [cpu_temp gpu_temp fan_duty auto_duty_val].
  pose proof (to_uint8_range (nth (Z.to_nat k.ec_reg_cpu_temp) bytes 0)).
  pose proof (to_uint8_range (nth (Z.to_nat k.ec_reg_gpu_temp) bytes 0)).
  pose proof (to_uint8_range (nth (Z.to_nat k.ec_reg_fan_duty) bytes 0)) as Hd.
  fold (image_byte bytes k.ec_reg_cpu_temp) in *.
  fold (image_byte bytes k.ec_reg_gpu_temp) in *.
  fold (image_byte bytes k.ec_reg_fan_duty) in *.
  pose proof (calculate_fan_duty_byte_range (image_byte bytes k.ec_reg_fan_duty)
                ltac:(lia)).
  rewrite (calculate_fan_duty_byte (image_byte bytes k.ec_reg_fan_duty)) in * by lia.
  change k.ec_reg_cpu_temp with 0x07 in *. change k.ec_reg_gpu_temp with 0xCD in *.
  change k.ec_reg_fan_duty with 0xCE in *.
  repeat split; try reflexivity; lia.
Qed.

Lemma ec_worker_snapshot_decodes_witness :
  value_of (ec_worker_snapshot (mkControl 0 0 0 (-1))) (ready_world (ec_image 90 60 76)) =
  inr (mkControl 90 60 29 (-1)).
Proof.
  destruct (ec_worker_snapshot_decodes (mkControl 0 0 0 (-1))
              (ready_world (ec_image 90 60 76)) 3 (ec_image 90 60 76)
              eq_refl ltac:(lia) eq_refl ltac:(vm_compute; lia))
    as (c1 & Hv & Hcpu & Hgpu & Hfan & Hauto & _).
  rewrite Hv. destruct c1 as [a b d e]. cbn in Hcpu, Hgpu, Hfan, Hauto.
  subst. vm_compute. reflexivity.
Defined.

Lemma ec_worker_snapshot_short_witness :
  value_of (ec_worker_snapshot (mkControl 70 60 40 40)) short_read_world =
  inr (mkControl 70 60 40 40).
Proof.
  apply (ec_worker_snapshot_short (mkControl 70 60 40 40) short_read_world 3
                                  (repeat 7 240) eq_refl ltac:(lia) eq_refl).
  vm_compute. lia.
Defined.

(** X12. When [open] fails, the worker returns [errno] from its first
    iteration: it reads nothing, closes nothing and does no port I/O; all
    it leaves is the failed [open] and the message. *)
Theorem ec_worker_open_failure (fuel : nat) (c : Control) (w : World) (err : Z) :
  global_running_flag w = true ->
  open_ret w (open_count w) = OpenError err ->
  ec_worker_loop (S fuel) c w =
  (Some err,
   log (EvPrint MsgUnableToReadEC)
       (log (EvOpen sysfs_path (-1)) (set_errno err (next_open w)))).
Proof.
  intros Hflag Hopen. cbn [ec_worker_loop].
  unfold bind, read_running_flag, ec_worker_body, bind. rewrite Hflag.
  rewrite (ec_worker_snapshot_open_error c w err Hopen). reflexivity.
Qed.

Lemma ec_worker_open_failure_witness :
  value_of (ec_worker_loop 1 (mkControl 0 0 0 (-1))) no_sysfs_world = Some 2 /\
  read_count (world_after (ec_worker_loop 1 (mkControl 0 0 0 (-1))) no_sysfs_world) = 0%nat.
Proof.
  unfold value_of, world_after.
  rewrite (ec_worker_open_failure 0 (mkControl 0 0 0 (-1)) no_sysfs_world 2
                                  eq_refl eq_refl).
  split; reflexivity.
Defined.

Lemma ec_worker_body_open_fds_witness :
  open_fds (world_after (ec_worker_body (mkControl 0 0 0 (-1)))
                        (ready_world (ec_image 90 60 76))) = [].
Proof.
  apply (ec_worker_body_open_fds
           (mkControl 0 0 0 (-1))
           (match value_of (ec_worker_body (mkControl 0 0 0 (-1)))
                           (ready_world (ec_image 90 60 76)) with
            | inr c2 => c2
            | inl _ => mkControl 0 0 0 (-1)
            end)
           (ready_world (ec_image 90 60 76)) _ 3 eq_refl).
  - cbn. tauto.
  - vm_compute. reflexivity.
Defined.

Lemma ec_worker_loop_stops_witness :
  exists e, value_of (ec_worker_loop 3 (mkControl 0 0 0 (-1))) sigterm_world = Some e.
Proof.
  apply (ec_worker_loop_stops 1 3 (mkControl 0 0 0 (-1)) sigterm_world SIGTERM);
    [reflexivity | lia].
Defined.

Lemma ec_worker_loop_runs_witness :
  value_of (ec_worker_loop 3 (mkControl 0 0 0 (-1))) (ready_world (ec_image 90 60 76)) = None.
Proof.
  apply (ec_worker_loop_runs 3 (mkControl 0 0 0 (-1)) (ready_world (ec_image 90 60 76))).
  repeat split; try reflexivity.
  - intros n. exists 3. split; [reflexivity | lia].
  - intros n. eexists. reflexivity.
Defined.

(** ** Shutdown guard *)


(** ** Command line *)

(** X17. When [ioperm] refuses a port, the program exits with failure
    whatever its arguments are, without a single port read or write. *)
Theorem main_without_permission (fuel : nat) (args : list string) (w : World) :
  ioperm_ret w k.ec_data <> 0 \/ ioperm_ret w k.ec_sc <> 0 ->
  value_of (main fuel args) w = Some EXIT_FAILURE /\
  inb_count (world_after (main fuel args) w) = inb_count w /\
  writes_of (main fuel args) w [].
Proof.
  intros Hdenied. apply main_denied.
  destruct (ec_init_spec w) as [Hfail Hok]. unfold value_of.
  destruct (Z.eq_dec (ioperm_ret w k.ec_data) 0) as [E | N].
  - rewrite (Hok E). cbn [fst]. tauto.
  - rewrite (Hfail N). exact N.
Qed.

Lemma main_without_permission_witness :
  value_of (main 0 ["clevo-fancontrol"; "50"]%string) denied_world = Some EXIT_FAILURE.
Proof.
  apply (main_without_permission 0 ["clevo-fancontrol"; "50"]%string denied_world).
  left. discriminate.
Defined.

Lemma main_dumps_witness :
  writes_of (main 0 ["clevo-fancontrol"; "50"; "-h"]%string) busy_world dump_bytes /\
  value_of (main 0 ["clevo-fancontrol"]%string) busy_world = Some EXIT_SUCCESS.
Proof.
  split.
  - apply (main_dumps 0 ["clevo-fancontrol"; "50"; "-h"]%string busy_world
                      eq_refl eq_refl).
    right. reflexivity.
  - apply (main_dumps 0 ["clevo-fancontrol"]%string busy_world eq_refl eq_refl).
    left. cbn. lia.
Defined.

Lemma main_sets_fan_witness :
  value_of (main 0 ["clevo-fancontrol"; "50"]%string) (ready_world []) = Some EXIT_SUCCESS /\
  value_of (main 0 ["clevo-fancontrol"; "50"]%string) busy_world = Some EXIT_FAILURE.
Proof.
  destruct (main_sets_fan 0 ["clevo-fancontrol"; "50"]%string (ready_world [])
              eq_refl eq_refl 50 ltac:(cbn; lia) eq_refl eq_refl ltac:(lia))
    as [[E _] | [E _]]; [| vm_compute in E; discriminate E].
  destruct (main_sets_fan 0 ["clevo-fancontrol"; "50"]%string busy_world
              eq_refl eq_refl 50 ltac:(cbn; lia) eq_refl eq_refl ltac:(lia))
    as [[E' _] | [E' _]]; [vm_compute in E'; discriminate E' |].
  split; assumption.
Defined.
